(** * Smart Home RTOS demo (RTX_Blinky/Blinky.c): ceiling manager, task
    registry, shared sensor state, log ring and the periodic tasks.

    The C program runs on the Keil RTX kernel.  Kernel calls (mutex,
    semaphore, mailbox, delay, event flags) are not part of the program:
    their outcome is an input of the model, of type [OS_RESULT], and the
    program's reaction to each outcome is what is embedded below.

    Conventions.
    - [int] and [unsigned int] values are [Z]; where the C arithmetic can
      leave the type it is written out (wrap-around for [unsigned int],
      [None] for signed overflow and for an array index out of bounds,
      both undefined in C).
    - Arrays are lists accessed with stdpp's [!!] and [<[ _ := _ ]>].
    - A task body is a computation in the monad [M]: it threads the globals
      ([World]) and emits the sequence of observable [Event]s. *)

From Stdlib Require Import ZArith List Bool Lia.
From stdpp Require Import base option list numbers.

#[local] Open Scope Z_scope.

(** ** Kernel interface (RTL.h) *)

Module RTX.

(** Completion codes of the kernel's wait/send calls.  They are declared in
    RTL.h, which the repository does not contain; the program only ever
    compares a code with [OS_R_OK]. *)
Inductive OS_RESULT : Set :=
| OS_R_OK | OS_R_TMO | OS_R_EVT | OS_R_SEM | OS_R_MBX | OS_R_MUT | OS_R_NOK.

#[global] Instance OS_RESULT_eq_dec : EqDecision OS_RESULT.
Proof. solve_decision. Defined.

(** [r == OS_R_OK] *)
Definition is_ok (r : OS_RESULT) : bool :=
  match r with OS_R_OK => true | _ => false end.

(** Task identifier, an unsigned 32-bit value; the program uses 0 for
    "no task". *)
Definition OS_TID := Z.

End RTX.
Export RTX.

Definition INT_MAX : Z := 0x7fffffff.
Definition UINT_MOD : Z := 2 ^ 32.

(** ** Ceiling manager state *)

(** [ceiling_owner] (0 = no owner) and [system_ceiling] (0 = none), both
    protected by [mut_ceiling]. *)
Record Ceiling : Set := mkCeiling {
  ceiling_owner : OS_TID;
  system_ceiling : Z
}.

Definition ceiling_init : Ceiling := mkCeiling 0 0.

Definition set_ceiling_owner (o : OS_TID) (c : Ceiling) : Ceiling :=
  mkCeiling o (system_ceiling c).

Definition set_system_ceiling (v : Z) (c : Ceiling) : Ceiling :=
  mkCeiling (ceiling_owner c) v.

(** ** Task registry *)

Definition MAX_TASKS : Z := 12.

Record TASKINFO : Set := mkTaskInfo { tid : OS_TID; base_prio : Z }.

(** [task_table] is the fixed array of [MAX_TASKS] entries, of which the
    first [task_table_count] are in use. *)
Record Registry : Set := mkRegistry {
  task_table : list TASKINFO;
  task_table_count : Z
}.

Definition registry_init : Registry :=
  mkRegistry (replicate (Z.to_nat MAX_TASKS) (mkTaskInfo 0 0)) 0.

(** [void register_task(OS_TID tid, int prio)] *)
Definition register_task (t : OS_TID) (prio : Z) (r : Registry) : Registry :=
  if task_table_count r <? MAX_TASKS then
    mkRegistry (<[Z.to_nat (task_table_count r) := mkTaskInfo t prio]> (task_table r))
               (task_table_count r + 1)
  else r.

(** The [for] loop of [get_base_priority]: [n] iterations remain, starting
    at index [i].  Reading past the array is undefined ([None]). *)
Fixpoint scan_table (tbl : list TASKINFO) (t : OS_TID) (i : Z) (n : nat)
  : option Z :=
  match n with
  | O => Some INT_MAX
  | S n' =>
      match tbl !! Z.to_nat i with
      | None => None
      | Some e =>
          if tid e =? t then Some (base_prio e)
          else scan_table tbl t (i + 1) n'
      end
  end.

(** [int get_base_priority(OS_TID tid)] *)
Definition get_base_priority (r : Registry) (t : OS_TID) : option Z :=
  scan_table (task_table r) t 0 (Z.to_nat (task_table_count r)).

(** The array has [MAX_TASKS] entries and the count stays within it. *)
Definition registry_wf (r : Registry) : Prop :=
  length (task_table r) = Z.to_nat MAX_TASKS /\
  0 <= task_table_count r <= MAX_TASKS.

(** [t] is the identity of one of the entries in use. *)
Definition registered (r : Registry) (t : OS_TID) : Prop :=
  exists i e, 0 <= i < task_table_count r /\
              task_table r !! Z.to_nat i = Some e /\ tid e = t.

Definition registeredb (r : Registry) (t : OS_TID) : bool :=
  existsb (fun e => tid e =? t)
          (take (Z.to_nat (task_table_count r)) (task_table r)).

(** ** ICPP simulation *)

(** [int icpp_acquire(OS_TID self)]; [mut] is what
    [os_mut_wait(&mut_ceiling, 0xffff)] returned. *)
Definition icpp_acquire (mut : OS_RESULT) (self : OS_TID) (c : Ceiling)
  : Z * Ceiling :=
  if negb (is_ok mut) then (0, c)
  else if ceiling_owner c =? 0 then (1, set_ceiling_owner self c)
  else (0, c).

(** [void icpp_release(OS_TID self)] *)
Definition icpp_release (mut : OS_RESULT) (self : OS_TID) (c : Ceiling)
  : Ceiling :=
  if negb (is_ok mut) then c
  else if ceiling_owner c =? self then set_ceiling_owner 0 c
  else c.

(** ** OCPP simulation *)

(** [int ocpp_acquire(OS_TID self, int resource_ceiling)].  The priority is
    looked up before the mutex is taken, as in the source. *)
Definition ocpp_acquire (mut : OS_RESULT) (self : OS_TID)
    (resource_ceiling : Z) (r : Registry) (c : Ceiling) : option (Z * Ceiling) :=
  myprio ← get_base_priority r self;
  if negb (is_ok mut) then Some (0, c)
  else if (myprio <=? resource_ceiling) &&
          ((system_ceiling c =? 0) || (myprio <=? system_ceiling c))
       then Some (1, set_system_ceiling resource_ceiling c)
       else Some (0, c).

(** [void ocpp_release(OS_TID self, int resource_ceiling)] *)
Definition ocpp_release (mut : OS_RESULT) (self : OS_TID)
    (resource_ceiling : Z) (c : Ceiling) : Ceiling :=
  if negb (is_ok mut) then c
  else if system_ceiling c =? resource_ceiling then set_system_ceiling 0 c
  else c.

(** ** Interleavings of ceiling-manager calls

    [mut_ceiling] serialises the bodies, so an interleaving of calls by
    several tasks is a sequence of calls, each with the task that makes it
    and the outcome of its mutex wait. *)

Inductive IcppCall : Set :=
| IAcquire (mut : OS_RESULT) (self : OS_TID)
| IRelease (mut : OS_RESULT) (self : OS_TID).

Definition icpp_step (c : Ceiling) (k : IcppCall) : Ceiling :=
  match k with
  | IAcquire mut self => snd (icpp_acquire mut self c)
  | IRelease mut self => icpp_release mut self c
  end.

Definition icpp_run (ks : list IcppCall) (c : Ceiling) : Ceiling :=
  fold_left icpp_step ks c.

(** Task [t] is recorded as the ICPP owner. *)
Definition recorded_owner (c : Ceiling) (t : OS_TID) : Prop :=
  t <> 0 /\ ceiling_owner c = t.

(** Tasks that were granted the resource and have not released it since:
    the bookkeeping a caller would derive from the return values. *)
Fixpoint icpp_holders (ks : list IcppCall) (c : Ceiling) (held : list OS_TID)
  : list OS_TID :=
  match ks with
  | [] => held
  | IAcquire mut self :: ks' =>
      let '(ret, c') := icpp_acquire mut self c in
      icpp_holders ks' c' (if ret =? 1 then self :: held else held)
  | IRelease mut self :: ks' =>
      let c' := icpp_release mut self c in
      icpp_holders ks' c'
        (if is_ok mut then filter (fun t => t <> self) held else held)
  end.

(** ** Globals *)

(** ---------------- LEDs -------------------- *)
Definition LED_TEMP_MASK : Z := 0x0F.
Definition LED_LIGHT_MASK : Z := 0x70.
Definition LED_CLK : Z := 0x80.

(** ---------------- Event Flags -------------- *)
Definition EVT_TEMP_UPDATE : Z := 0x0001.
Definition EVT_LIGHT_UPDATE : Z := 0x0002.
Definition EVT_MOTION : Z := 0x0004.

Definition MSGBOX_SIZE : Z := 5.

(** A [log_pool] slot holds the text last formatted into it; the text is
    kept as the format used and its arguments. *)
Inductive LOGMSG : Set :=
| Log_blank
| Log_temp (temp level : Z)      (* "Temp:%dC Fan:%d" *)
| Log_light (light level : Z).   (* "Light:%u Level:%d" *)

(** The tasks created by [init], used to name the target of a signal. *)
Inductive TaskName : Set :=
| T_temp | T_light | T_motion | T_display | T_logger | T_emergency | T_clock.

Record World : Set := mkWorld {
  sensor_temp : Z;
  sensor_light : Z;
  motion_detected : Z;
  emergency_flag : Z;
  log_pool : list LOGMSG;
  log_pool_put : Z;
  log_pool_get : Z;
  ceil : Ceiling;
  reg : Registry;
  fio2 : Z                       (* pins P2.0 - P2.7 *)
}.

Definition world_init : World :=
  mkWorld 20 50 0 0 (replicate (Z.to_nat MSGBOX_SIZE) Log_blank) 0 0
          ceiling_init registry_init 0.

Definition set_sensor_temp (v : Z) (w : World) : World :=
  mkWorld v (sensor_light w) (motion_detected w) (emergency_flag w)
          (log_pool w) (log_pool_put w) (log_pool_get w) (ceil w) (reg w) (fio2 w).
Definition set_sensor_light (v : Z) (w : World) : World :=
  mkWorld (sensor_temp w) v (motion_detected w) (emergency_flag w)
          (log_pool w) (log_pool_put w) (log_pool_get w) (ceil w) (reg w) (fio2 w).
Definition set_motion_detected (v : Z) (w : World) : World :=
  mkWorld (sensor_temp w) (sensor_light w) v (emergency_flag w)
          (log_pool w) (log_pool_put w) (log_pool_get w) (ceil w) (reg w) (fio2 w).
Definition set_emergency_flag (v : Z) (w : World) : World :=
  mkWorld (sensor_temp w) (sensor_light w) (motion_detected w) v
          (log_pool w) (log_pool_put w) (log_pool_get w) (ceil w) (reg w) (fio2 w).
Definition set_log_pool (v : list LOGMSG) (w : World) : World :=
  mkWorld (sensor_temp w) (sensor_light w) (motion_detected w) (emergency_flag w)
          v (log_pool_put w) (log_pool_get w) (ceil w) (reg w) (fio2 w).
Definition set_log_pool_put (v : Z) (w : World) : World :=
  mkWorld (sensor_temp w) (sensor_light w) (motion_detected w) (emergency_flag w)
          (log_pool w) v (log_pool_get w) (ceil w) (reg w) (fio2 w).
Definition set_log_pool_get (v : Z) (w : World) : World :=
  mkWorld (sensor_temp w) (sensor_light w) (motion_detected w) (emergency_flag w)
          (log_pool w) (log_pool_put w) v (ceil w) (reg w) (fio2 w).
Definition set_ceil (v : Ceiling) (w : World) : World :=
  mkWorld (sensor_temp w) (sensor_light w) (motion_detected w) (emergency_flag w)
          (log_pool w) (log_pool_put w) (log_pool_get w) v (reg w) (fio2 w).
Definition set_reg (v : Registry) (w : World) : World :=
  mkWorld (sensor_temp w) (sensor_light w) (motion_detected w) (emergency_flag w)
          (log_pool w) (log_pool_put w) (log_pool_get w) (ceil w) v (fio2 w).
Definition set_fio2 (v : Z) (w : World) : World :=
  mkWorld (sensor_temp w) (sensor_light w) (motion_detected w) (emergency_flag w)
          (log_pool w) (log_pool_put w) (log_pool_get w) (ceil w) (reg w) v.

(** ** Observable events *)

(** The three shared sensor fields. *)
Inductive Field : Set := F_temp | F_light | F_motion.

Definition field_value (f : Field) (w : World) : Z :=
  match f with
  | F_temp => sensor_temp w
  | F_light => sensor_light w
  | F_motion => motion_detected w
  end.

Definition set_field (f : Field) (v : Z) (w : World) : World :=
  match f with
  | F_temp => set_sensor_temp v w
  | F_light => set_sensor_light v w
  | F_motion => set_motion_detected v w
  end.

(** What is written to the LCD. *)
Inductive LcdText : Set :=
| Txt_banner                          (* "Smart Home System" *)
| Txt_snapshot (temp light motion : Z) (* "T:%dC L:%u M:%u" *)
| Txt_log_prefix                      (* "Log:" *)
| Txt_log (m : LOGMSG)
| Txt_overheat.                       (* "!!! OVERHEAT !!!" *)

Inductive Event : Set :=
| E_sem_wait (timeout : Z) (r : OS_RESULT)     (* os_sem_wait(&sem_sensors, _) *)
| E_sem_send                                   (* os_sem_send(&sem_sensors) *)
| E_read (f : Field) (v : Z)
| E_write (f : Field) (v : Z)
| E_icpp_acquire (self : OS_TID) (ret : Z)
| E_icpp_release (self : OS_TID)
| E_ocpp_acquire (self : OS_TID) (resource_ceiling ret : Z)
| E_ocpp_release (self : OS_TID) (resource_ceiling : Z)
| E_update_temp_leds (level : Z)
| E_update_light_leds (level : Z)
| E_fio2set (bits : Z)
| E_fio2clr (bits : Z)
| E_mbx_send (slot : Z) (r : OS_RESULT)        (* os_mbx_send(&msgbox, log_pool[slot], 40) *)
| E_mbx_wait (timeout : Z) (r : OS_RESULT)
| E_lcd_wait (timeout : Z) (r : OS_RESULT)     (* os_mut_wait(&mut_lcd, _) *)
| E_lcd_release
| E_lcd_cls
| E_lcd_gotoxy (x y : Z)
| E_lcd_puts (t : LcdText)
| E_evt_wait_or (flags timeout : Z)
| E_evt_set (flags : Z) (dest : TaskName)
| E_dly (ticks : Z).

(** ** The task monad: globals, undefined behaviour, emitted events *)

Definition M (A : Type) : Type := World -> option (A * World * list Event).

Definition ret {A} (a : A) : M A := fun w => Some (a, w, []).

Definition bind {A B} (m : M A) (k : A -> M B) : M B :=
  fun w =>
    match m w with
    | None => None
    | Some (a, w1, t1) =>
        match k a w1 with
        | None => None
        | Some (b, w2, t2) => Some (b, w2, t1 ++ t2)
        end
    end.

Notation "'let*' x ':=' m 'in' k" := (bind m (fun x => k))
  (at level 10, x name, m at level 100, k at level 200, only parsing).
Notation "m '>>>' k" := (bind m (fun _ => k))
  (at level 90, right associativity, only parsing).

Definition undefined {A} : M A := fun _ => None.
Definition get_world : M World := fun w => Some (w, w, []).
Definition modify (f : World -> World) : M unit := fun w => Some (tt, f w, []).
Definition emit (e : Event) : M unit := fun w => Some (tt, w, [e]).
Definition when (b : bool) (m : M unit) : M unit := if b then m else ret tt.

(** Events emitted by a computation started in [w] ([[]] if undefined). *)
Definition events {A} (m : M A) (w : World) : list Event :=
  match m w with Some (_, _, t) => t | None => [] end.

(** Every access to a shared sensor field goes through these two. *)
Definition read_field (f : Field) : M Z :=
  fun w => Some (field_value f w, w, [E_read f (field_value f w)]).
Definition write_field (f : Field) (v : Z) : M unit :=
  fun w => Some (tt, set_field f v w, [E_write f v]).

(** [FIO2SET = bits] and [FIO2CLR = bits] *)
Definition fio2set (bits : Z) : M unit :=
  modify (fun w => set_fio2 (Z.lor (fio2 w) bits) w) >>> emit (E_fio2set bits).
Definition fio2clr (bits : Z) : M unit :=
  modify (fun w => set_fio2 (Z.ldiff (fio2 w) bits) w) >>> emit (E_fio2clr bits).

Definition os_dly_wait (ticks : Z) : M unit := emit (E_dly ticks).
Definition os_evt_set (flags : Z) (dest : TaskName) : M unit :=
  emit (E_evt_set flags dest).

(** Expose the primitives of [M] in a goal. *)
Ltac unfold_monad :=
  unfold bind, ret, emit, modify, when, get_world, undefined,
         read_field, write_field, fio2set, fio2clr, os_dly_wait, os_evt_set.

(** The ceiling manager's calls, on the globals. *)
Definition icpp_acquire_m (mut : OS_RESULT) (self : OS_TID) : M Z :=
  let* w := get_world in
  let '(r, c) := icpp_acquire mut self (ceil w) in
  modify (set_ceil c) >>> emit (E_icpp_acquire self r) >>> ret r.

Definition icpp_release_m (mut : OS_RESULT) (self : OS_TID) : M unit :=
  modify (fun w => set_ceil (icpp_release mut self (ceil w)) w) >>>
  emit (E_icpp_release self).

Definition ocpp_acquire_m (mut : OS_RESULT) (self : OS_TID)
    (resource_ceiling : Z) : M Z :=
  let* w := get_world in
  match ocpp_acquire mut self resource_ceiling (reg w) (ceil w) with
  | None => undefined
  | Some (r, c) =>
      modify (set_ceil c) >>>
      emit (E_ocpp_acquire self resource_ceiling r) >>> ret r
  end.

Definition ocpp_release_m (mut : OS_RESULT) (self : OS_TID)
    (resource_ceiling : Z) : M unit :=
  modify (fun w => set_ceil (ocpp_release mut self resource_ceiling (ceil w)) w) >>>
  emit (E_ocpp_release self resource_ceiling).

(** ** LED helpers *)

(** [void update_temp_leds(int level)] *)
Definition update_temp_leds (level : Z) : M unit :=
  let bits :=
    if level =? 0 then 0x01 else if level =? 1 then 0x03
    else if level =? 2 then 0x07 else if level =? 3 then 0x0F else 0x01 in
  emit (E_update_temp_leds level) >>>
  fio2clr LED_TEMP_MASK >>>
  fio2set (Z.land bits LED_TEMP_MASK).

(** [void update_light_leds(int level)] *)
Definition update_light_leds (level : Z) : M unit :=
  let bits :=
    if level =? 0 then 0x00 else if level =? 1 then 0x10
    else if level =? 2 then 0x30 else if level =? 3 then 0x70 else 0x10 in
  emit (E_update_light_leds level) >>>
  fio2clr LED_LIGHT_MASK >>>
  fio2set (Z.land bits LED_LIGHT_MASK).

(** ** Tasks

    One definition per task body: one pass through the task's [for (;;)]
    loop, run to completion.  The outcome of each kernel wait is an
    argument; what other tasks do meanwhile is not modelled. *)

(** Locals of [temp_task] that live across iterations. *)
Record TempLocals : Set := mkTempLocals {
  tl_temp : Z;          (* unsigned int temp *)
  tl_rising : Z;        (* unsigned char rising *)
  tl_level : Z          (* int level *)
}.

Definition temp_locals_init : TempLocals := mkTempLocals 20 1 0.

(** "map to fan level" (lines 203-206) *)
Definition fan_level (temp : Z) : Z :=
  if temp <? 25 then 0
  else if temp <? 30 then 1
  else if temp <? 35 then 2
  else 3.

(** The four lines that end [temp_task] and [light_task] alike: format the
    text into slot [log_pool_put % MSGBOX_SIZE], send the slot's address,
    advance the cursor if the send returned [OS_R_OK].  [%] truncates
    towards zero, as [Z.rem]. *)
Definition log_emit (mbx : OS_RESULT) (msg : LOGMSG) : M unit :=
  let* w := get_world in
  let idx := Z.rem (log_pool_put w) MSGBOX_SIZE in
  if (idx <? 0) || (Z.of_nat (length (log_pool w)) <=? idx) then undefined
  else
    modify (set_log_pool (<[Z.to_nat idx := msg]> (log_pool w))) >>>
    emit (E_mbx_send idx mbx) >>>
    if is_ok mbx then
      if log_pool_put w =? INT_MAX then undefined
      else modify (set_log_pool_put (log_pool_put w + 1))
    else ret tt.

(** [temp_task], lines 190-206: next simulated value, guarded update of
    [sensor_temp], fan level. *)
Definition temp_task_sense (sem : OS_RESULT) (l : TempLocals) : M TempLocals :=
  let temp := if tl_rising l =? 0 then (tl_temp l - 1) mod UINT_MOD
              else (tl_temp l + 1) mod UINT_MOD in
  let rising := if temp >=? 40 then 0 else tl_rising l in
  let rising := if temp <=? 20 then 1 else rising in
  emit (E_sem_wait 50 sem) >>>
  when (is_ok sem) (write_field F_temp temp >>> emit E_sem_send) >>>
  ret (mkTempLocals temp rising (fan_level temp)).

(** [temp_task], lines 212-214, for an acquisition that is granted at the
    first attempt. *)
Definition temp_task_leds_granted (mut_rel : OS_RESULT) (self : OS_TID)
    (l : TempLocals) : M unit :=
  update_temp_leds (tl_level l) >>> icpp_release_m mut_rel self.

(** [temp_task], lines 212-214: retry [icpp_acquire] with a 5-tick delay
    until it is granted, one mutex outcome per attempt; then update the
    LEDs and release.  The attempts listed may all fail: the result is then
    [false] and the loop is still spinning. *)
Fixpoint temp_task_leds (muts : list OS_RESULT) (mut_rel : OS_RESULT)
    (self : OS_TID) (l : TempLocals) : M bool :=
  match muts with
  | [] => ret false
  | mut :: muts' =>
      let* r := icpp_acquire_m mut self in
      if r =? 0 then os_dly_wait 5 >>> temp_task_leds muts' mut_rel self l
      else temp_task_leds_granted mut_rel self l >>> ret true
  end.

(** [temp_task], lines 217-224. *)
Definition temp_task_log (mbx : OS_RESULT) (l : TempLocals) : M unit :=
  log_emit mbx (Log_temp (tl_temp l) (tl_level l)) >>>
  os_evt_set EVT_TEMP_UPDATE T_display >>>
  os_dly_wait 200.

(** Locals of [light_task] that live across iterations. *)
Record LightLocals : Set := mkLightLocals {
  ll_light : Z;         (* unsigned int light *)
  ll_darkening : Z;     (* unsigned char darkening *)
  ll_level : Z          (* int level *)
}.

Definition light_locals_init : LightLocals := mkLightLocals 50 1 0.

Definition LIGHT_RESOURCE_CEILING : Z := 2.

(** Lines 255-258. *)
Definition room_level (light : Z) : Z :=
  if light <? 25 then 0
  else if light <? 50 then 1
  else if light <? 75 then 2
  else 3.

(** Outcomes of the kernel waits of one [light_task] iteration. *)
Record LightEnv : Set := mkLightEnv {
  le_sem : OS_RESULT;        (* os_sem_wait(&sem_sensors, 50) *)
  le_mut_acquire : OS_RESULT; (* os_mut_wait in ocpp_acquire *)
  le_mut_release : OS_RESULT; (* os_mut_wait in ocpp_release *)
  le_mbx : OS_RESULT         (* os_mbx_send *)
}.

(** [light_task], lines 244-258. *)
Definition light_task_sense (sem : OS_RESULT) (l : LightLocals) : M LightLocals :=
  let light := if ll_darkening l =? 0 then (ll_light l - 5) mod UINT_MOD
               else (ll_light l + 5) mod UINT_MOD in
  let darkening := if light >=? 90 then 0 else ll_darkening l in
  let darkening := if light <=? 10 then 1 else darkening in
  emit (E_sem_wait 50 sem) >>>
  when (is_ok sem) (write_field F_light light >>> emit E_sem_send) >>>
  ret (mkLightLocals light darkening (room_level light)).

(** [light_task], lines 260-278: "Motion Override + OCPP Handling". *)
Definition light_task_resource (mut_acquire mut_release : OS_RESULT)
    (self : OS_TID) (level : Z) : M unit :=
  let* motion := read_field F_motion in
  if negb (motion =? 0) then
    fio2set 0xFF >>> os_dly_wait 100 >>> fio2clr 0xFF
  else
    let* got := ocpp_acquire_m mut_acquire self LIGHT_RESOURCE_CEILING in
    if negb (got =? 0) then
      update_light_leds level >>>
      ocpp_release_m mut_release self LIGHT_RESOURCE_CEILING
    else
      update_light_leds level.

(** [light_task]: one iteration. *)
Definition light_task (env : LightEnv) (self : OS_TID) (l : LightLocals)
  : M LightLocals :=
  let* l' := light_task_sense (le_sem env) l in
  light_task_resource (le_mut_acquire env) (le_mut_release env) self (ll_level l') >>>
  log_emit (le_mbx env) (Log_light (ll_light l') (ll_level l')) >>>
  os_evt_set EVT_LIGHT_UPDATE T_display >>>
  os_dly_wait 50 >>>
  ret l'.

(** [motion_task]: one iteration. *)
Definition motion_task : M unit :=
  os_dly_wait 800 >>>
  write_field F_motion 1 >>>
  os_evt_set EVT_MOTION T_light >>>
  os_evt_set EVT_MOTION T_display >>>
  os_dly_wait 400 >>>
  write_field F_motion 0.

(** [display_task]: one iteration. *)
Definition display_task (sem lcd : OS_RESULT) : M unit :=
  emit (E_evt_wait_or (Z.lor (Z.lor EVT_TEMP_UPDATE EVT_LIGHT_UPDATE) EVT_MOTION) 200) >>>
  emit (E_sem_wait 50 sem) >>>
  when (is_ok sem)
    (let* temp := read_field F_temp in
     let* light := read_field F_light in
     let* motion := read_field F_motion in
     emit E_sem_send >>>
     emit (E_lcd_wait 100 lcd) >>>
     when (is_ok lcd)
       (emit E_lcd_cls >>>
        emit (E_lcd_puts (Txt_snapshot temp light motion)) >>>
        emit E_lcd_release)).

(** [logger_task]: one iteration.  [mbx] is what [os_mbx_wait] returned and
    [slot] the [log_pool] slot whose address it delivered; the text shown is
    what the slot holds when it is printed. *)
Definition logger_task (mbx : OS_RESULT) (slot : Z) (lcd : OS_RESULT) : M unit :=
  emit (E_mbx_wait 120 mbx) >>>
  if is_ok mbx then
    emit (E_lcd_wait 100 lcd) >>>
    when (is_ok lcd)
      (let* w := get_world in
       match log_pool w !! Z.to_nat slot with
       | None => undefined
       | Some m =>
           emit (E_lcd_gotoxy 1 2) >>>
           emit (E_lcd_puts Txt_log_prefix) >>>
           emit (E_lcd_puts (Txt_log m)) >>>
           emit E_lcd_release
       end) >>>
    let* w := get_world in
    if log_pool_get w =? INT_MAX then undefined
    else modify (set_log_pool_get (log_pool_get w + 1))
  else os_dly_wait 30.

(** [emergency_task]: one iteration. *)
Definition emergency_task (lcd : OS_RESULT) : M unit :=
  let* temp := read_field F_temp in
  modify (set_emergency_flag (if temp >? 45 then 1 else 0)) >>>
  let* w := get_world in
  when (negb (emergency_flag w =? 0))
    (emit (E_lcd_wait 0xffff lcd) >>>
     when (is_ok lcd)
       (emit E_lcd_cls >>> emit (E_lcd_puts Txt_overheat) >>> emit E_lcd_release) >>>
     fio2set 0xFF >>> os_dly_wait 10 >>>
     fio2clr 0xFF >>> os_dly_wait 10) >>>
  os_dly_wait 50.

(** [clock_task]: one iteration. *)
Definition clock_task : M unit :=
  fio2set LED_CLK >>> os_dly_wait 5 >>> fio2clr LED_CLK >>> os_dly_wait 95.

(** The registrations made by [init], for the task identifiers that
    [os_tsk_create] returned. *)
Definition init_registry (t_temp t_light t_motion t_display t_logger
    t_emergency t_clock : OS_TID) : Registry :=
  register_task t_clock 7
   (register_task t_emergency 1
    (register_task t_logger 6
     (register_task t_display 5
      (register_task t_motion 2
       (register_task t_light 4
        (register_task t_temp 3 registry_init)))))).

(** ** Access discipline of the shared sensor fields *)

(** [sem_guarded held t]: in the event sequence [t], started with the
    semaphore held or not, every read and write of a sensor field happens
    between an [os_sem_wait(&sem_sensors, _)] that returned [OS_R_OK] and the
    next [os_sem_send(&sem_sensors)]. *)
Fixpoint sem_guarded (held : bool) (t : list Event) : bool :=
  match t with
  | [] => true
  | E_sem_wait _ r :: t' => sem_guarded (held || is_ok r) t'
  | E_sem_send :: t' => sem_guarded false t'
  | E_read _ _ :: t' => held && sem_guarded held t'
  | E_write _ _ :: t' => held && sem_guarded held t'
  | _ :: t' => sem_guarded held t'
  end.

(** The motion override of [light_task] (lines 264-268): the flag is read
    with value [motion], then all LEDs are switched on, held and switched
    off. *)
Definition flash_events (motion : Z) : list Event :=
  [E_read F_motion motion; E_fio2set 0xFF; E_dly 100; E_fio2clr 0xFF].

(** The event is a call into one of the two ceiling protocols. *)
Definition is_ceiling_call (e : Event) : bool :=
  match e with
  | E_icpp_acquire _ _ | E_icpp_release _
  | E_ocpp_acquire _ _ _ | E_ocpp_release _ _ => true
  | _ => false
  end.

(** [ocpp_attempt_before_update self t]: the sequence [t] contains a call
    [ocpp_acquire(self, LIGHT_RESOURCE_CEILING)] and no [update_light_leds]
    before it. *)
Fixpoint ocpp_attempt_before_update (self : OS_TID) (t : list Event) : bool :=
  match t with
  | [] => false
  | E_ocpp_acquire s c _ :: _ => (s =? self) && (c =? LIGHT_RESOURCE_CEILING)
  | E_update_light_leds _ :: _ => false
  | _ :: t' => ocpp_attempt_before_update self t'
  end.

(** ** Log ring *)

(** The ring is intact: five slots, cursor non-negative and not yet at the
    largest [int]. *)
Definition ring_wf (w : World) : Prop :=
  Z.of_nat (length (log_pool w)) = MSGBOX_SIZE /\
  0 <= log_pool_put w < INT_MAX.

(** The caller of a call. *)
Definition call_self (k : IcppCall) : OS_TID :=
  match k with IAcquire _ s | IRelease _ s => s end.

(** The holders list agrees with the owner field. *)
Definition holders_match (c : Ceiling) (held : list OS_TID) : Prop :=
  (ceiling_owner c = 0 /\ held = []) \/
  (ceiling_owner c <> 0 /\ held = [ceiling_owner c]).

(** ** Runs of several iterations, and checks on event sequences *)

(** The call is not an [icpp_release] by [a] whose mutex wait succeeded. *)
Definition not_release_by (a : OS_TID) (k : IcppCall) : bool :=
  match k with
  | IAcquire _ _ => true
  | IRelease mut s => negb (is_ok mut && (s =? a))
  end.

(** Consecutive passes through lines 190-206 of [temp_task], one semaphore
    outcome per pass. *)
Fixpoint temp_task_sense_iter (sems : list OS_RESULT) (l : TempLocals)
  : M TempLocals :=
  match sems with
  | [] => ret l
  | sem :: sems' =>
      let* l' := temp_task_sense sem l in temp_task_sense_iter sems' l'
  end.

(** Consecutive passes through lines 244-258 of [light_task]. *)
Fixpoint light_task_sense_iter (sems : list OS_RESULT) (l : LightLocals)
  : M LightLocals :=
  match sems with
  | [] => ret l
  | sem :: sems' =>
      let* l' := light_task_sense sem l in light_task_sense_iter sems' l'
  end.

(** What [temp_task] keeps true of its locals between iterations. *)
Definition temp_locals_ok (l : TempLocals) : Prop :=
  20 <= tl_temp l <= 40 /\
  (tl_temp l = 40 -> tl_rising l = 0) /\
  (tl_temp l = 20 -> tl_rising l <> 0).

(** What [light_task] keeps true of its locals between iterations. *)
Definition light_locals_ok (l : LightLocals) : Prop :=
  (exists k, ll_light l = 5 * k) /\
  10 <= ll_light l <= 90 /\
  (ll_light l = 90 -> ll_darkening l = 0) /\
  (ll_light l = 10 -> ll_darkening l <> 0).

(** [releases_answer_waits owed_sem owed_lcd t] reads the calls in [t] and
    nothing else: [os_sem_send(&sem_sensors)] is called once after each
    [os_sem_wait(&sem_sensors, _)] that returned [OS_R_OK], before the next
    such wait and before [t] ends, and at no other place; likewise
    [os_mut_release(&mut_lcd)] for [os_mut_wait(&mut_lcd, _)].  A wait that
    returned another code calls for no release.  [owed_sem] and [owed_lcd]
    say whether such a release is still to come when [t] starts. *)
Fixpoint releases_answer_waits (owed_sem owed_lcd : bool) (t : list Event) : bool :=
  match t with
  | [] => negb owed_sem && negb owed_lcd
  | E_sem_wait _ r :: t' =>
      if is_ok r then negb owed_sem && releases_answer_waits true owed_lcd t'
      else releases_answer_waits owed_sem owed_lcd t'
  | E_sem_send :: t' => owed_sem && releases_answer_waits false owed_lcd t'
  | E_lcd_wait _ r :: t' =>
      if is_ok r then negb owed_lcd && releases_answer_waits owed_sem true t'
      else releases_answer_waits owed_sem owed_lcd t'
  | E_lcd_release :: t' => owed_lcd && releases_answer_waits owed_sem false t'
  | _ :: t' => releases_answer_waits owed_sem owed_lcd t'
  end.

(** The event writes to the LCD. *)
Definition is_lcd_output (e : Event) : bool :=
  match e with
  | E_lcd_cls | E_lcd_gotoxy _ _ | E_lcd_puts _ => true
  | _ => false
  end.


(** Turn [NoDup] of an explicit list into the inequalities it stands for. *)
Ltac split_nodup :=
  repeat match goal with
         | H : NoDup (_ :: _) |- _ =>
             let Hx := fresh "Hx" in
             let Hr := fresh "Hr" in
             inversion H as [|? ? Hx Hr]; subst; clear H;
             repeat (rewrite not_elem_of_cons in Hx)
         end.

(** ** The specification's wording, for comparison with the code *)

(** "lookup of an unregistered identity yields an explicit unknown result
    (never a sentinel numeric value)": whether the identity was registered
    can be told from the result of the lookup alone. *)
Definition explicit_unknown_result : Prop :=
  exists is_unknown : Z -> bool,
    forall r t p, registry_wf r -> get_base_priority r t = Some p ->
                  (is_unknown p = true <-> ~ registered r t).

(** "acquire(task, R) succeeds iff p <= R and (systemCeiling is unset or
    p <= systemCeiling); on success systemCeiling = R, on failure it is
    unchanged", [p] being the task's static priority. *)
Definition ocpp_acquire_iff_priority : Prop :=
  forall mut self R r c p,
    get_base_priority r self = Some p ->
    exists ret c',
      ocpp_acquire mut self R r c = Some (ret, c') /\
      (ret = 1 <-> p <= R /\ (system_ceiling c = 0 \/ p <= system_ceiling c)) /\
      (ret = 1 -> system_ceiling c' = R) /\
      (ret <> 1 -> ret = 0 /\ c' = c).

(** "release(task, R) clears systemCeiling iff it currently equals R". *)
Definition ocpp_release_iff_match : Prop :=
  forall mut self R c,
    (system_ceiling c = R -> system_ceiling (ocpp_release mut self R c) = 0) /\
    (system_ceiling c <> R -> ocpp_release mut self R c = c).

(** * Properties *)

(** ** Kernel results *)

Lemma is_ok_true r : is_ok r = true <-> r = OS_R_OK.
Proof. destruct r; simpl; split; congruence. Qed.

Lemma is_ok_false r : is_ok r = false <-> r <> OS_R_OK.
Proof. destruct r; simpl; split; congruence. Qed.

(** ** ICPP *)

Section Icpp.

Variables (mut : OS_RESULT) (self : OS_TID) (c : Ceiling).

Lemma icpp_acquire_granted :
  (icpp_acquire mut self c).1 = 1 ->
  mut = OS_R_OK /\ ceiling_owner c = 0 /\
  (icpp_acquire mut self c).2 = set_ceiling_owner self c.
Proof.
  unfold icpp_acquire.
  destruct (is_ok mut) eqn:Hm; simpl; [|discriminate].
  apply is_ok_true in Hm.
  destruct (Z.eqb_spec (ceiling_owner c) 0); simpl; [auto|discriminate].
Qed.

Lemma icpp_acquire_refused :
  (icpp_acquire mut self c).1 <> 1 -> icpp_acquire mut self c = (0, c).
Proof.
  unfold icpp_acquire.
  destruct (is_ok mut); simpl; [|reflexivity].
  destruct (ceiling_owner c =? 0); simpl; congruence.
Qed.

Lemma icpp_acquire_owned :
  ceiling_owner c <> 0 -> icpp_acquire mut self c = (0, c).
Proof.
  intros Ho. unfold icpp_acquire.
  destruct (is_ok mut); simpl; [|reflexivity].
  destruct (Z.eqb_spec (ceiling_owner c) 0); [contradiction|reflexivity].
Qed.

Lemma icpp_acquire_free :
  mut = OS_R_OK -> ceiling_owner c = 0 ->
  icpp_acquire mut self c = (1, set_ceiling_owner self c).
Proof. intros -> Ho. unfold icpp_acquire. simpl. rewrite Ho. reflexivity. Qed.

Lemma icpp_release_non_owner :
  ceiling_owner c <> self -> icpp_release mut self c = c.
Proof.
  intros Ho. unfold icpp_release.
  destruct (is_ok mut); simpl; [|reflexivity].
  destruct (Z.eqb_spec (ceiling_owner c) self); [contradiction|reflexivity].
Qed.

Lemma icpp_release_cases :
  icpp_release mut self c = c \/
  (mut = OS_R_OK /\ ceiling_owner c = self /\
   icpp_release mut self c = set_ceiling_owner 0 c).
Proof.
  unfold icpp_release.
  destruct (is_ok mut) eqn:Hm; simpl; [|auto].
  apply is_ok_true in Hm.
  destruct (Z.eqb_spec (ceiling_owner c) self); auto.
Qed.

Lemma icpp_release_system_ceiling :
  system_ceiling (icpp_release mut self c) = system_ceiling c.
Proof. destruct icpp_release_cases as [->|(_ & _ & ->)]; reflexivity. Qed.

End Icpp.

Lemma recorded_owner_unique c a b :
  recorded_owner c a -> recorded_owner c b -> a = b.
Proof. intros [_ Ha] [_ Hb]. congruence. Qed.

Lemma icpp_run_app ks1 ks2 c :
  icpp_run (ks1 ++ ks2) c = icpp_run ks2 (icpp_run ks1 c).
Proof. unfold icpp_run. apply fold_left_app. Qed.

(** The list of holders kept beside a run mirrors the owner field, as long
    as no caller passes the null identifier. *)
Lemma icpp_holders_match ks : forall c held,
  Forall (fun k => call_self k <> 0) ks ->
  holders_match c held ->
  holders_match (icpp_run ks c) (icpp_holders ks c held).
Proof.
  induction ks as [|k ks IH]; intros c held Hnz Hm; [exact Hm|].
  inversion Hnz as [|? ? Hk Hks]; subst.
  destruct k as [mut self|mut self]; simpl in Hk |- *.
  - unfold icpp_run in *. simpl.
    destruct (icpp_acquire mut self c) as [ret c'] eqn:Ha. simpl.
    apply IH; [assumption|].
    destruct (Z.eqb_spec ret 1) as [->|Hr].
    + pose proof (icpp_acquire_granted mut self c) as Hg.
      rewrite Ha in Hg. simpl in Hg. destruct (Hg eq_refl) as (_ & Ho & ->).
      destruct Hm as [[_ ->]|[Hne _]]; [|contradiction].
      right. simpl. auto.
    + pose proof (icpp_acquire_refused mut self c) as Hf.
      rewrite Ha in Hf. simpl in Hf. specialize (Hf Hr).
      injection Hf as _ ->. exact Hm.
  - unfold icpp_run in *. simpl. apply IH; [assumption|].
    destruct (icpp_release_cases mut self c) as [Hsame|(-> & Ho & ->)].
    + rewrite Hsame. destruct (is_ok mut) eqn:Hok; [|exact Hm].
      apply is_ok_true in Hok. subst mut.
      unfold icpp_release in Hsame. simpl in Hsame.
      destruct (Z.eqb_spec (ceiling_owner c) self) as [He|Hne].
      * destruct c as [o s]. unfold set_ceiling_owner in Hsame. simpl in *.
        injection Hsame as Hz. congruence.
      * destruct Hm as [[Hz ->]|[Hnz' ->]]; [left; auto|right].
        split; [assumption|].
        rewrite filter_cons_True by assumption. reflexivity.
    + simpl. left. split; [reflexivity|].
      destruct Hm as [[Hz ->]|[Hnz' ->]]; [reflexivity|].
      rewrite filter_cons_False by (intros H; apply H; assumption).
      reflexivity.
Qed.

Lemma icpp_holders_at_most_one ks :
  Forall (fun k => call_self k <> 0) ks ->
  (length (icpp_holders ks ceiling_init []) <= 1)%nat.
Proof.
  intros Hnz.
  destruct (icpp_holders_match ks ceiling_init [] Hnz) as [[_ ->]|[_ ->]];
    simpl; [left; split; reflexivity|lia|lia].
Qed.

(** C1. For every sequence of [icpp_acquire] / [icpp_release] calls (any
    callers, any mutex outcomes) started from the initial state, at most one
    task is recorded as owner.  In any state: an acquire that returns 1 found
    the owner unset and leaves it equal to the caller; an acquire on an
    owned resource returns 0 and changes nothing; a release changes the
    owner only when the owner is the caller, and then clears it; a release
    by a non-owner leaves the state as it is.  Both functions are total:
    nothing is raised.  Last, counting grants from the return values: when
    no caller uses the null identifier, at most one task at a time has been
    granted the resource and not released it. *)
Theorem icpp_single_owner :
  (forall ks a b,
      recorded_owner (icpp_run ks ceiling_init) a ->
      recorded_owner (icpp_run ks ceiling_init) b -> a = b) /\
  (forall mut self c,
      (icpp_acquire mut self c).1 = 1 ->
      ceiling_owner c = 0 /\ ceiling_owner (icpp_acquire mut self c).2 = self) /\
  (forall mut self c,
      ceiling_owner c <> 0 -> icpp_acquire mut self c = (0, c)) /\
  (forall mut self c,
      ceiling_owner (icpp_release mut self c) <> ceiling_owner c ->
      ceiling_owner c = self /\ ceiling_owner (icpp_release mut self c) = 0) /\
  (forall mut self c,
      ceiling_owner c <> self -> icpp_release mut self c = c) /\
  (forall ks,
      Forall (fun k => call_self k <> 0) ks ->
      (length (icpp_holders ks ceiling_init []) <= 1)%nat).
Proof.
  split; [|split; [|split; [|split; [|split]]]];
    [| | | | |apply icpp_holders_at_most_one].
  - intros ks a b. apply recorded_owner_unique.
  - intros mut self c Hr.
    destruct (icpp_acquire_granted mut self c Hr) as (_ & Ho & ->). auto.
  - intros mut self c. apply icpp_acquire_owned.
  - intros mut self c Hch.
    destruct (icpp_release_cases mut self c) as [Hs|(_ & Ho & Hs)];
      rewrite Hs in *; [contradiction|auto].
  - intros mut self c. apply icpp_release_non_owner.
Qed.

(** C1 at a concrete interleaving: task 3 is granted, task 4 is refused and
    its release is ignored, task 3 is still the owner. *)
Lemma icpp_single_owner_witness :
  let c := icpp_run [IAcquire OS_R_OK 3; IAcquire OS_R_OK 4; IRelease OS_R_OK 4]
                    ceiling_init in
  recorded_owner c 3 /\
  (forall b, recorded_owner c b -> 3 = b) /\
  icpp_acquire OS_R_OK 4 c = (0, c) /\
  icpp_release OS_R_OK 4 c = c.
Proof.
  destruct icpp_single_owner as (Huniq & _ & Hbusy & _ & Hrel & _).
  assert (Ho : recorded_owner
                 (icpp_run [IAcquire OS_R_OK 3; IAcquire OS_R_OK 4; IRelease OS_R_OK 4]
                           ceiling_init) 3)
    by (split; [lia|reflexivity]).
  split; [exact Ho|]. split; [|split].
  - intros b Hb. exact (Huniq _ 3 b Ho Hb).
  - apply Hbusy. simpl. lia.
  - apply Hrel. simpl. lia.
Defined.

(** ** Task registry *)

Lemma registry_init_wf : registry_wf registry_init.
Proof. split; [reflexivity|unfold MAX_TASKS; simpl; lia]. Qed.

Lemma register_task_wf t prio r : registry_wf r -> registry_wf (register_task t prio r).
Proof.
  intros [Hlen Hcnt]. unfold register_task.
  destruct (Z.ltb_spec (task_table_count r) MAX_TASKS); [|split; assumption].
  split; simpl; [rewrite length_insert; assumption|lia].
Qed.

Lemma init_registry_wf a b c d e f g : registry_wf (init_registry a b c d e f g).
Proof. unfold init_registry. repeat apply register_task_wf. apply registry_init_wf. Qed.

(** Inside the array the loop always returns. *)
Lemma scan_table_total tbl t n : forall i,
  0 <= i -> (Z.to_nat i + n <= length tbl)%nat ->
  exists p, scan_table tbl t i n = Some p.
Proof.
  induction n as [|n IH]; intros i Hi Hb; simpl; [eauto|].
  destruct (lookup_lt_is_Some_2 tbl (Z.to_nat i)) as [e He]; [lia|].
  rewrite He. destruct (tid e =? t); [eauto|].
  apply IH; [lia|]. rewrite Z2Nat.inj_add by lia. simpl. lia.
Qed.

(** No entry of the scanned range carries [t]: the loop falls through. *)
Lemma scan_table_absent tbl t n : forall i,
  0 <= i -> (Z.to_nat i + n <= length tbl)%nat ->
  (forall j e, i <= j < i + Z.of_nat n -> tbl !! Z.to_nat j = Some e -> tid e <> t) ->
  scan_table tbl t i n = Some INT_MAX.
Proof.
  induction n as [|n IH]; intros i Hi Hb Hno; simpl; [reflexivity|].
  destruct (lookup_lt_is_Some_2 tbl (Z.to_nat i)) as [e He]; [lia|].
  rewrite He.
  destruct (Z.eqb_spec (tid e) t) as [Heq|_].
  - exfalso. apply (Hno i e); [lia|assumption|assumption].
  - apply IH; [lia| |].
    + rewrite Z2Nat.inj_add by lia. simpl. lia.
    + intros j e' Hj. apply Hno. lia.
Qed.

Lemma get_base_priority_total r t :
  registry_wf r -> exists p, get_base_priority r t = Some p.
Proof.
  intros [Hlen Hcnt]. unfold get_base_priority.
  apply scan_table_total; [lia|]. rewrite Hlen. simpl. lia.
Qed.

Lemma get_base_priority_unregistered r t :
  registry_wf r -> ~ registered r t -> get_base_priority r t = Some INT_MAX.
Proof.
  intros [Hlen Hcnt] Hnr. unfold get_base_priority.
  apply scan_table_absent; [lia|rewrite Hlen; simpl; lia|].
  intros j e Hj He Ht. apply Hnr. exists j, e.
  repeat split; try assumption; lia.
Qed.

Lemma registeredb_spec r t : registeredb r t = true <-> registered r t.
Proof.
  unfold registeredb, registered. rewrite existsb_exists. split.
  - intros (e & Hin & He). apply Z.eqb_eq in He.
    apply list_elem_of_In, list_elem_of_lookup in Hin. destruct Hin as [i Hi].
    apply lookup_take_Some in Hi. destruct Hi as [Hi Hlt].
    exists (Z.of_nat i), e. rewrite Nat2Z.id. repeat split; try assumption; lia.
  - intros (i & e & Hi & He & Ht). exists e. split; [|apply Z.eqb_eq; assumption].
    apply list_elem_of_In, list_elem_of_lookup. exists (Z.to_nat i).
    apply lookup_take_Some. split; [assumption|lia].
Qed.

(** ** OCPP *)

Lemma ocpp_acquire_cases mut self R r c p :
  get_base_priority r self = Some p ->
  (mut = OS_R_OK /\ p <= R /\ (system_ceiling c = 0 \/ p <= system_ceiling c) /\
   ocpp_acquire mut self R r c = Some (1, set_system_ceiling R c)) \/
  (~ (mut = OS_R_OK /\ p <= R /\ (system_ceiling c = 0 \/ p <= system_ceiling c)) /\
   ocpp_acquire mut self R r c = Some (0, c)).
Proof.
  intros Hp. unfold ocpp_acquire. rewrite Hp. simpl.
  destruct (is_ok mut) eqn:Hm; simpl.
  - apply is_ok_true in Hm.
    destruct (Z.leb_spec p R); simpl.
    + destruct (Z.eqb_spec (system_ceiling c) 0); simpl; [left; auto|].
      destruct (Z.leb_spec p (system_ceiling c)); [left; auto|].
      right. split; [|reflexivity]. intros (_ & _ & [?|?]); lia.
    + right. split; [|reflexivity]. intros (_ & ? & _); lia.
  - apply is_ok_false in Hm. right. split; [|reflexivity].
    intros (? & _); contradiction.
Qed.

Lemma ocpp_release_ok self R c :
  ocpp_release OS_R_OK self R c =
  if decide (system_ceiling c = R) then set_system_ceiling 0 c else c.
Proof.
  unfold ocpp_release. simpl.
  destruct (Z.eqb_spec (system_ceiling c) R); case_decide; congruence.
Qed.

Lemma ocpp_release_not_ok mut self R c :
  mut <> OS_R_OK -> ocpp_release mut self R c = c.
Proof.
  intros Hm. apply is_ok_false in Hm. unfold ocpp_release. rewrite Hm. reflexivity.
Qed.

Lemma ocpp_release_mismatch mut self R c :
  system_ceiling c <> R -> ocpp_release mut self R c = c.
Proof.
  intros Hne. unfold ocpp_release. destruct (is_ok mut); simpl; [|reflexivity].
  destruct (Z.eqb_spec (system_ceiling c) R); [contradiction|reflexivity].
Qed.

(** C2, as amended.  With [p] the caller's base priority, [ocpp_acquire]
    returns 1 exactly when the wait on [mut_ceiling] returned [OS_R_OK] and
    [p <= resource_ceiling] and ([system_ceiling] is 0 or
    [p <= system_ceiling]); it then sets [system_ceiling] to
    [resource_ceiling] and nothing else.  In every other case it returns 0
    and the ceiling state is unchanged. *)
Theorem ocpp_acquire_iff_mutex_and_priority mut self R r c p :
  get_base_priority r self = Some p ->
  exists ret c',
    ocpp_acquire mut self R r c = Some (ret, c') /\
    (ret = 1 <->
       mut = OS_R_OK /\ p <= R /\ (system_ceiling c = 0 \/ p <= system_ceiling c)) /\
    (ret = 1 -> c' = set_system_ceiling R c /\ system_ceiling c' = R) /\
    (ret <> 1 -> ret = 0 /\ c' = c).
Proof.
  intros Hp.
  destruct (ocpp_acquire_cases mut self R r c p Hp) as [(Hm & H1 & H2 & ->)|(Hn & ->)].
  - exists 1, (set_system_ceiling R c). split; [reflexivity|]. split; [|split].
    + split; auto.
    + intros _. split; reflexivity.
    + intros Hne. exfalso. apply Hne. reflexivity.
  - exists 0, c. split; [reflexivity|]. split; [|split].
    + split; [discriminate|intros; contradiction].
    + discriminate.
    + auto.
Qed.

(** C2 on the motion task (priority 2) asking for the light resource
    (ceiling 2) with no ceiling in force. *)
Lemma ocpp_acquire_iff_mutex_and_priority_witness :
  exists ret c',
    ocpp_acquire OS_R_OK 3 2 (init_registry 1 2 3 4 5 6 7) ceiling_init = Some (ret, c') /\
    (ret = 1 <->
       OS_R_OK = OS_R_OK /\ 2 <= 2 /\
       (system_ceiling ceiling_init = 0 \/ 2 <= system_ceiling ceiling_init)) /\
    (ret = 1 -> c' = set_system_ceiling 2 ceiling_init /\ system_ceiling c' = 2) /\
    (ret <> 1 -> ret = 0 /\ c' = ceiling_init).
Proof.
  apply (ocpp_acquire_iff_mutex_and_priority
           OS_R_OK 3 2 (init_registry 1 2 3 4 5 6 7) ceiling_init 2).
  reflexivity.
Defined.

(** C2 as stated fails when the mutex wait returns anything but [OS_R_OK]:
    task 3, registered with priority 2, asks for ceiling 2 while no ceiling
    is in force; the priority conditions hold, the call returns 0. *)
Lemma ocpp_acquire_iff_priority_fails :
  get_base_priority (register_task 3 2 registry_init) 3 = Some 2 /\
  system_ceiling ceiling_init = 0 /\
  ocpp_acquire OS_R_MUT 3 2 (register_task 3 2 registry_init) ceiling_init
    = Some (0, ceiling_init) /\
  ~ ocpp_acquire_iff_priority.
Proof.
  split; [reflexivity|]. split; [reflexivity|]. split; [reflexivity|].
  intros H.
  destruct (H OS_R_MUT 3 2 (register_task 3 2 registry_init) ceiling_init 2 eq_refl)
    as (ret & c' & Hrun & Hiff & _).
  vm_compute in Hrun. injection Hrun as <- _.
  assert (Hone : 0 = 1) by (apply Hiff; simpl; lia).
  discriminate Hone.
Qed.

(** C3, as amended.  When the wait on [mut_ceiling] returned [OS_R_OK],
    [ocpp_release] sets [system_ceiling] to 0 if it equals
    [resource_ceiling] and changes nothing otherwise, whoever the caller is.
    When the wait returned something else, or the value does not match,
    nothing changes.  In particular, once a task of priority 2 has acquired
    ceiling 2 from the unset state, a release of ceiling 2 by any task [b]
    puts the ceiling back to unset. *)
Theorem ocpp_release_unchecked_identity R c :
  (forall self,
      ocpp_release OS_R_OK self R c =
      if decide (system_ceiling c = R) then set_system_ceiling 0 c else c) /\
  (forall mut self, mut <> OS_R_OK -> ocpp_release mut self R c = c) /\
  (forall mut self, system_ceiling c <> R -> ocpp_release mut self R c = c) /\
  (forall r a b,
      get_base_priority r a = Some 2 -> system_ceiling c = 0 ->
      exists c1,
        ocpp_acquire OS_R_OK a 2 r c = Some (1, c1) /\
        system_ceiling c1 = 2 /\
        ocpp_release OS_R_OK b 2 c1 = c).
Proof.
  split; [|split; [|split]].
  - intros self. apply ocpp_release_ok.
  - intros mut self. apply ocpp_release_not_ok.
  - intros mut self. apply ocpp_release_mismatch.
  - intros r a b Hp Hc.
    destruct (ocpp_acquire_cases OS_R_OK a 2 r c 2 Hp) as [(_ & _ & _ & ->)|(Hn & _)].
    + exists (set_system_ceiling 2 c). split; [reflexivity|]. split; [reflexivity|].
      rewrite ocpp_release_ok. destruct c as [o s]. simpl in Hc. subst s.
      reflexivity.
    + exfalso. apply Hn. repeat split; [lia|auto].
Qed.

(** C3 in the regression scenario: task 3 (priority 2) acquires ceiling 2,
    task 4 releases it. *)
Lemma ocpp_release_unchecked_identity_witness :
  exists c1,
    ocpp_acquire OS_R_OK 3 2 (init_registry 1 2 3 4 5 6 7) ceiling_init = Some (1, c1) /\
    system_ceiling c1 = 2 /\
    ocpp_release OS_R_OK 4 2 c1 = ceiling_init.
Proof.
  destruct (ocpp_release_unchecked_identity 2 ceiling_init) as (_ & _ & _ & H).
  apply (H (init_registry 1 2 3 4 5 6 7) 3 4); reflexivity.
Defined.

(** C3 as stated fails when the mutex wait of the release returns anything
    but [OS_R_OK]: the ceiling is 2, the release names 2, the ceiling stays. *)
Lemma ocpp_release_iff_match_fails :
  ocpp_acquire OS_R_OK 3 2 (register_task 3 2 registry_init) ceiling_init
    = Some (1, mkCeiling 0 2) /\
  ocpp_release OS_R_MUT 4 2 (mkCeiling 0 2) = mkCeiling 0 2 /\
  ~ ocpp_release_iff_match.
Proof.
  split; [reflexivity|]. split; [reflexivity|].
  intros H. destruct (H OS_R_MUT 4 2 (mkCeiling 0 2)) as [Hclear _].
  specialize (Hclear eq_refl). discriminate Hclear.
Qed.

(** C5, as amended.  Looking up an identity that is not in the registry
    returns the number 0x7fffffff. *)
Theorem get_base_priority_unregistered_sentinel r t :
  registry_wf r -> ~ registered r t -> get_base_priority r t = Some 0x7fffffff.
Proof.
  intros [Hlen Hcnt] Hnr. unfold get_base_priority.
  change 0x7fffffff with INT_MAX.
  apply scan_table_absent.
  - lia.
  - rewrite Hlen. simpl. lia.
  - intros j e Hj He Ht. apply Hnr. exists j, e.
    split; [lia|]. split; assumption.
Qed.

(** C5 on the registry built by [init], for an identity it did not
    register. *)
Lemma get_base_priority_unregistered_sentinel_witness :
  get_base_priority (init_registry 1 2 3 4 5 6 7) 9 = Some 0x7fffffff.
Proof.
  apply get_base_priority_unregistered_sentinel.
  - apply init_registry_wf.
  - intros H. apply registeredb_spec in H. vm_compute in H. discriminate H.
Defined.

(** C5 as stated fails: the lookup of the unregistered identity 9 returns
    2147483647, the same number as the lookup of identity 1 registered with
    that priority, so the result alone does not say "unknown". *)
Lemma explicit_unknown_result_fails :
  get_base_priority (register_task 1 INT_MAX registry_init) 9 = Some 2147483647 /\
  get_base_priority (register_task 1 INT_MAX registry_init) 1 = Some 2147483647 /\
  registeredb (register_task 1 INT_MAX registry_init) 9 = false /\
  registeredb (register_task 1 INT_MAX registry_init) 1 = true /\
  ~ explicit_unknown_result.
Proof.
  repeat (split; [reflexivity|]).
  intros [is_unknown H].
  pose (r := register_task 1 INT_MAX registry_init).
  assert (Hwf : registry_wf r) by (apply register_task_wf, registry_init_wf).
  pose proof (H r 9 INT_MAX Hwf eq_refl) as H9.
  pose proof (H r 1 INT_MAX Hwf eq_refl) as H1.
  assert (Hn9 : ~ registered r 9).
  { intros Hr. apply registeredb_spec in Hr. vm_compute in Hr. discriminate Hr. }
  assert (Hr1 : registered r 1) by (apply registeredb_spec; reflexivity).
  apply H9 in Hn9. apply H1 in Hn9. contradiction.
Qed.

(** C10.  For an identity that is not in the registry, [get_base_priority]
    returns 0x7fffffff, and [ocpp_acquire] called with that identity and a
    resource ceiling below 0x7fffffff returns 0 and leaves the ceiling state
    (so [system_ceiling]) unchanged, whatever the mutex wait returned. *)
Theorem ocpp_acquire_unregistered_refused r t :
  registry_wf r -> ~ registered r t ->
  get_base_priority r t = Some 0x7fffffff /\
  forall mut R c, R < 0x7fffffff -> ocpp_acquire mut t R r c = Some (0, c).
Proof.
  intros Hwf Hnr.
  pose proof (get_base_priority_unregistered r t Hwf Hnr) as Hp.
  split; [exact Hp|]. intros mut R c HR.
  destruct (ocpp_acquire_cases mut t R r c INT_MAX Hp) as [(_ & Hle & _)|(_ & ->)].
  - unfold INT_MAX in Hle. lia.
  - reflexivity.
Qed.

(** C10 on the registry built by [init]: identity 9 asks for the light
    resource. *)
Lemma ocpp_acquire_unregistered_refused_witness :
  get_base_priority (init_registry 1 2 3 4 5 6 7) 9 = Some 0x7fffffff /\
  ocpp_acquire OS_R_OK 9 LIGHT_RESOURCE_CEILING (init_registry 1 2 3 4 5 6 7) ceiling_init
    = Some (0, ceiling_init).
Proof.
  destruct (ocpp_acquire_unregistered_refused (init_registry 1 2 3 4 5 6 7) 9)
    as [Hp Hacq].
  - apply init_registry_wf.
  - intros H. apply registeredb_spec in H. vm_compute in H. discriminate H.
  - split; [exact Hp|]. apply Hacq. unfold LIGHT_RESOURCE_CEILING. lia.
Defined.

(** ** Running task bodies *)

Lemma temp_task_sense_run sem l w :
  exists temp rising,
    temp_task_sense sem l w =
    Some (mkTempLocals temp rising (fan_level temp),
          if is_ok sem then set_sensor_temp temp w else w,
          E_sem_wait 50 sem ::
          (if is_ok sem then [E_write F_temp temp; E_sem_send] else [])).
Proof.
  unfold temp_task_sense. unfold_monad.
  destruct (is_ok sem); simpl; eauto.
Qed.

Lemma light_task_sense_run sem l w :
  exists light darkening,
    light_task_sense sem l w =
    Some (mkLightLocals light darkening (room_level light),
          if is_ok sem then set_sensor_light light w else w,
          E_sem_wait 50 sem ::
          (if is_ok sem then [E_write F_light light; E_sem_send] else [])).
Proof.
  unfold light_task_sense. unfold_monad.
  destruct (is_ok sem); simpl; eauto.
Qed.

Lemma motion_task_run w :
  motion_task w =
  Some (tt, set_motion_detected 0 (set_motion_detected 1 w),
        [E_dly 800; E_write F_motion 1; E_evt_set EVT_MOTION T_light;
         E_evt_set EVT_MOTION T_display; E_dly 400; E_write F_motion 0]).
Proof. reflexivity. Qed.

Lemma emergency_task_events lcd w :
  exists t, events (emergency_task lcd) w = E_read F_temp (sensor_temp w) :: t.
Proof.
  unfold events, emergency_task. unfold_monad. simpl.
  destruct (sensor_temp w >? 45); simpl; [|eauto].
  destruct (is_ok lcd); simpl; eauto.
Qed.

(** While another task owns the resource every attempt of the retry loop
    is refused: the loop is still spinning after the attempts listed, the
    ceiling state is as it was and [update_temp_leds] has not been called. *)
Lemma temp_task_leds_starved muts mut_rel self l : forall w,
  ceiling_owner (ceil w) <> 0 ->
  exists w' t,
    temp_task_leds muts mut_rel self l w = Some (false, w', t) /\
    ceil w' = ceil w /\
    Forall (fun e => e = E_icpp_acquire self 0 \/ e = E_dly 5) t.
Proof.
  induction muts as [|mut muts IH]; intros w Ho; simpl.
  - exists w, []. repeat split. constructor.
  - unfold icpp_acquire_m. unfold_monad.
    rewrite (icpp_acquire_owned mut self (ceil w) Ho). simpl.
    destruct (IH (set_ceil (ceil w) w) Ho) as (w' & t & -> & Hc & Ht).
    eexists _, _. split; [reflexivity|]. split; [exact Hc|].
    repeat (constructor; [auto|]). exact Ht.
Qed.

(** ** Fan and room levels *)

Lemma fan_level_table t :
  (t < 25 -> fan_level t = 0) /\
  (25 <= t < 30 -> fan_level t = 1) /\
  (30 <= t < 35 -> fan_level t = 2) /\
  (35 <= t -> fan_level t = 3).
Proof.
  unfold fan_level.
  destruct (Z.ltb_spec t 25), (Z.ltb_spec t 30), (Z.ltb_spec t 35);
    repeat split; intros; lia.
Qed.

Lemma room_level_table l :
  (l < 25 -> room_level l = 0) /\
  (25 <= l < 50 -> room_level l = 1) /\
  (50 <= l < 75 -> room_level l = 2) /\
  (75 <= l -> room_level l = 3).
Proof.
  unfold room_level.
  destruct (Z.ltb_spec l 25), (Z.ltb_spec l 50), (Z.ltb_spec l 75);
    repeat split; intros; lia.
Qed.

(** C6.  In every iteration of [temp_task] the level computed from the new
    temperature [t] is 0 if [t < 25], 1 if [25 <= t < 30], 2 if
    [30 <= t < 35] and 3 otherwise; in every iteration of [light_task] the
    level computed from the new light value [v] is 0 if [v < 25], 1 if
    [25 <= v < 50], 2 if [50 <= v < 75] and 3 otherwise.  The same holds of
    the two classifications taken as functions of an arbitrary value. *)
Theorem levels_follow_thresholds :
  (forall sem l w, exists l' w' tr,
      temp_task_sense sem l w = Some (l', w', tr) /\
      let t := tl_temp l' in
      (t < 25 -> tl_level l' = 0) /\
      (25 <= t < 30 -> tl_level l' = 1) /\
      (30 <= t < 35 -> tl_level l' = 2) /\
      (35 <= t -> tl_level l' = 3)) /\
  (forall sem l w, exists l' w' tr,
      light_task_sense sem l w = Some (l', w', tr) /\
      let v := ll_light l' in
      (v < 25 -> ll_level l' = 0) /\
      (25 <= v < 50 -> ll_level l' = 1) /\
      (50 <= v < 75 -> ll_level l' = 2) /\
      (75 <= v -> ll_level l' = 3)) /\
  (forall t,
      (t < 25 -> fan_level t = 0) /\
      (25 <= t < 30 -> fan_level t = 1) /\
      (30 <= t < 35 -> fan_level t = 2) /\
      (35 <= t -> fan_level t = 3)) /\
  (forall v,
      (v < 25 -> room_level v = 0) /\
      (25 <= v < 50 -> room_level v = 1) /\
      (50 <= v < 75 -> room_level v = 2) /\
      (75 <= v -> room_level v = 3)).
Proof.
  split; [|split; [|split]].
  - intros sem l w.
    destruct (temp_task_sense_run sem l w) as (temp & rising & ->).
    eexists _, _, _. split; [reflexivity|]. simpl. apply fan_level_table.
  - intros sem l w.
    destruct (light_task_sense_run sem l w) as (light & darkening & ->).
    eexists _, _, _. split; [reflexivity|]. simpl. apply room_level_table.
  - apply fan_level_table.
  - apply room_level_table.
Qed.

(** C6 at the first iteration of both tasks (temperature 21, light 55) and at
    the values 32 and 80. *)
Lemma levels_follow_thresholds_witness :
  (exists w' tr,
      temp_task_sense OS_R_OK temp_locals_init world_init
      = Some (mkTempLocals 21 1 0, w', tr)) /\
  (exists w' tr,
      light_task_sense OS_R_OK light_locals_init world_init
      = Some (mkLightLocals 55 1 2, w', tr)) /\
  fan_level 32 = 2 /\ room_level 80 = 3.
Proof.
  destruct levels_follow_thresholds as (_ & _ & Hfan & Hroom).
  split; [eexists _, _; reflexivity|].
  split; [eexists _, _; reflexivity|].
  split.
  - apply (Hfan 32). lia.
  - apply (Hroom 80). lia.
Defined.

(** ** Shared sensor fields and [sem_sensors] *)

(** The writers of [sensor_temp] and [sensor_light] and the reader
    [display_task] keep to the semaphore. *)
Lemma temp_task_sense_guarded sem l w :
  sem_guarded false (events (temp_task_sense sem l) w) = true.
Proof.
  unfold events. destruct (temp_task_sense_run sem l w) as (t & r & ->).
  destruct sem; reflexivity.
Qed.

Lemma light_task_sense_guarded sem l w :
  sem_guarded false (events (light_task_sense sem l) w) = true.
Proof.
  unfold events. destruct (light_task_sense_run sem l w) as (t & r & ->).
  destruct sem; reflexivity.
Qed.

Lemma display_task_guarded sem lcd w :
  sem_guarded false (events (display_task sem lcd) w) = true.
Proof.
  unfold events, display_task. unfold_monad.
  destruct sem, lcd; reflexivity.
Qed.

(** C4 on the code: [motion_task] writes [motion_detected] twice in each
    iteration and never waits on [sem_sensors]; [emergency_task] starts each
    iteration by reading [sensor_temp], likewise outside the semaphore.
    Neither event sequence is guarded. *)
Theorem sensor_fields_accessed_outside_semaphore w :
  events motion_task w =
    [E_dly 800; E_write F_motion 1; E_evt_set EVT_MOTION T_light;
     E_evt_set EVT_MOTION T_display; E_dly 400; E_write F_motion 0] /\
  sem_guarded false (events motion_task w) = false /\
  (forall lcd, sem_guarded false (events (emergency_task lcd) w) = false).
Proof.
  split; [reflexivity|]. split; [reflexivity|].
  intros lcd. destruct (emergency_task_events lcd w) as [t ->]. reflexivity.
Qed.

(** ** Sequencing *)

Lemma bind_run {A B} (m : M A) (k : A -> M B) w a w1 t1 :
  m w = Some (a, w1, t1) ->
  bind m k w =
  match k a w1 with
  | None => None
  | Some (b, w2, t2) => Some (b, w2, t1 ++ t2)
  end.
Proof. intros H. unfold bind. rewrite H. reflexivity. Qed.

(** ** Log ring: the producer side *)

Lemma ring_slot_bounds w :
  ring_wf w ->
  0 <= Z.rem (log_pool_put w) MSGBOX_SIZE < Z.of_nat (length (log_pool w)).
Proof.
  intros [Hlen Hput]. rewrite Hlen.
  apply Z.rem_bound_pos; unfold MSGBOX_SIZE; lia.
Qed.

Lemma log_emit_run r m w :
  ring_wf w ->
  log_emit r m w =
  Some (tt,
        (if is_ok r then set_log_pool_put (log_pool_put w + 1) else id)
          (set_log_pool
             (<[Z.to_nat (Z.rem (log_pool_put w) MSGBOX_SIZE) := m]> (log_pool w)) w),
        [E_mbx_send (Z.rem (log_pool_put w) MSGBOX_SIZE) r]).
Proof.
  intros Hwf. pose proof (ring_slot_bounds w Hwf) as Hb.
  destruct Hwf as [Hlen Hput].
  unfold log_emit. unfold_monad.
  destruct (Z.ltb_spec (Z.rem (log_pool_put w) MSGBOX_SIZE) 0); [lia|].
  destruct (Z.leb_spec (Z.of_nat (length (log_pool w)))
                       (Z.rem (log_pool_put w) MSGBOX_SIZE)); [lia|].
  simpl. destruct (is_ok r); simpl; [|reflexivity].
  destruct (Z.eqb_spec (log_pool_put w) INT_MAX); [lia|]. reflexivity.
Qed.

Lemma temp_task_log_run r l w :
  temp_task_log r l w =
  match log_emit r (Log_temp (tl_temp l) (tl_level l)) w with
  | None => None
  | Some (_, w', t) =>
      Some (tt, w', t ++ [E_evt_set EVT_TEMP_UPDATE T_display; E_dly 200])
  end.
Proof.
  unfold temp_task_log. unfold_monad.
  destruct (log_emit r _ w) as [[[[] w'] t]|]; reflexivity.
Qed.

(** C7.  One pass through the log lines of a producer, on an intact ring:
    the text goes to slot [log_pool_put % 5] and the cursor moves (by one)
    only if the send returned [OS_R_OK].  After a send that did not, the
    cursor is unchanged and the next pass writes its text to that same slot,
    replacing the previous one, all other slots being left alone. *)
Theorem cursor_advances_only_on_success r1 m1 w :
  ring_wf w ->
  let slot := Z.rem (log_pool_put w) MSGBOX_SIZE in
  exists w1,
    log_emit r1 m1 w = Some (tt, w1, [E_mbx_send slot r1]) /\
    log_pool w1 !! Z.to_nat slot = Some m1 /\
    (r1 = OS_R_OK -> log_pool_put w1 = log_pool_put w + 1) /\
    (log_pool_put w1 <> log_pool_put w -> r1 = OS_R_OK) /\
    (r1 <> OS_R_OK ->
       log_pool_put w1 = log_pool_put w /\
       forall r2 m2, exists w2,
         log_emit r2 m2 w1 = Some (tt, w2, [E_mbx_send slot r2]) /\
         log_pool w2 !! Z.to_nat slot = Some m2 /\
         forall j, j <> Z.to_nat slot -> log_pool w2 !! j = log_pool w !! j).
Proof.
  intros Hwf slot. pose proof (ring_slot_bounds w Hwf) as Hb. fold slot in Hb.
  rewrite (log_emit_run r1 m1 w Hwf). fold slot.
  eexists. split; [reflexivity|].
  assert (Hslot : (Z.to_nat slot < length (log_pool w))%nat) by lia.
  split; [|split; [|split]].
  - destruct (is_ok r1); simpl; apply list_lookup_insert_eq; assumption.
  - intros ->. reflexivity.
  - destruct (is_ok r1) eqn:Hr; simpl; [intros _; apply is_ok_true; assumption|].
    intros Hne. exfalso. apply Hne. reflexivity.
  - intros Hr. apply is_ok_false in Hr. rewrite Hr. simpl.
    split; [reflexivity|]. intros r2 m2.
    set (w1 := set_log_pool (<[Z.to_nat slot := m1]> (log_pool w)) w).
    assert (Hwf1 : ring_wf w1).
    { destruct Hwf as [Hlen Hput]. split; simpl; [|assumption].
      rewrite length_insert. assumption. }
    rewrite (log_emit_run r2 m2 w1 Hwf1). simpl. fold slot.
    eexists. split; [reflexivity|]. split.
    + destruct (is_ok r2); simpl; apply list_lookup_insert_eq;
        rewrite length_insert; assumption.
    + intros j Hj.
      destruct (is_ok r2); simpl;
        rewrite !list_lookup_insert_ne by (intros ?; apply Hj; congruence);
        reflexivity.
Qed.

(** C7 from the initial state: a first text whose send times out, then a
    second one; both go to slot 0 and the second is the one left there. *)
Lemma cursor_advances_only_on_success_witness :
  exists w1 w2,
    log_emit OS_R_TMO (Log_temp 21 0) world_init = Some (tt, w1, [E_mbx_send 0 OS_R_TMO]) /\
    log_pool_put w1 = 0 /\
    log_emit OS_R_OK (Log_light 55 2) w1 = Some (tt, w2, [E_mbx_send 0 OS_R_OK]) /\
    log_pool w2 !! 0%nat = Some (Log_light 55 2).
Proof.
  assert (Hwf : ring_wf world_init) by (split; [reflexivity|vm_compute; split; [discriminate|reflexivity]]).
  destruct (cursor_advances_only_on_success OS_R_TMO (Log_temp 21 0) world_init Hwf)
    as (w1 & Hrun & _ & _ & _ & Hfail).
  destruct (Hfail ltac:(discriminate)) as [Hput Hnext].
  destruct (Hnext OS_R_OK (Log_light 55 2)) as (w2 & Hrun2 & Hslot & _).
  exists w1, w2. split; [exact Hrun|]. split; [exact Hput|].
  split; [exact Hrun2|exact Hslot].
Defined.

(** ** [light_task]: motion override and OCPP-guarded update *)

Lemma light_task_resource_motion ma mr self level w :
  motion_detected w <> 0 ->
  exists w',
    light_task_resource ma mr self level w
      = Some (tt, w', flash_events (motion_detected w)) /\
    log_pool w' = log_pool w /\ log_pool_put w' = log_pool_put w /\
    ceil w' = ceil w.
Proof.
  intros Hm. unfold light_task_resource. unfold_monad. simpl.
  destruct (Z.eqb_spec (motion_detected w) 0); [contradiction|]. simpl.
  eexists. split; [reflexivity|]. repeat split.
Qed.

Lemma light_task_resource_idle ma mr self level w :
  motion_detected w = 0 ->
  registry_wf (reg w) ->
  exists got w' tl,
    light_task_resource ma mr self level w
      = Some (tt, w',
              E_read F_motion 0 ::
              E_ocpp_acquire self LIGHT_RESOURCE_CEILING got ::
              E_update_light_leds level :: tl) /\
    log_pool w' = log_pool w /\ log_pool_put w' = log_pool_put w.
Proof.
  intros Hm Hwf.
  destruct (get_base_priority_total (reg w) self Hwf) as [p Hp].
  unfold light_task_resource, ocpp_acquire_m, ocpp_release_m, update_light_leds.
  unfold_monad. simpl. rewrite Hm. simpl.
  destruct (ocpp_acquire_cases ma self LIGHT_RESOURCE_CEILING (reg w) (ceil w) p Hp)
    as [(_ & _ & _ & ->)|(_ & ->)]; simpl;
    eexists _, _, _; (split; [reflexivity|]); split; reflexivity.
Qed.

Lemma light_task_run env self l w :
  ring_wf w -> registry_wf (reg w) ->
  exists l' w' pre mid slot,
    light_task env self l w =
      Some (l', w',
            (E_sem_wait 50 (le_sem env) :: pre) ++ mid ++
            [E_mbx_send slot (le_mbx env);
             E_evt_set EVT_LIGHT_UPDATE T_display; E_dly 50]) /\
    (pre = [] \/ exists v, pre = [E_write F_light v; E_sem_send]) /\
    (motion_detected w <> 0 -> mid = flash_events (motion_detected w)) /\
    (motion_detected w = 0 ->
       exists got tl,
         mid = E_read F_motion 0 ::
               E_ocpp_acquire self LIGHT_RESOURCE_CEILING got ::
               E_update_light_leds (ll_level l') :: tl).
Proof.
  intros Hring Hreg. unfold light_task.
  destruct (light_task_sense_run (le_sem env) l w) as (light & dark & Hs).
  rewrite (bind_run _ _ _ _ _ _ Hs).
  set (ws := if is_ok (le_sem env) then set_sensor_light light w else w) in *.
  assert (Hws : motion_detected ws = motion_detected w /\ reg ws = reg w /\
                log_pool ws = log_pool w /\ log_pool_put ws = log_pool_put w)
    by (unfold ws; destruct (is_ok (le_sem env)); repeat split).
  destruct Hws as (Hm & Hr & Hlp & Hput).
  assert (Hpre : (if is_ok (le_sem env) then [E_write F_light light; E_sem_send] else [])
                 = [] \/
                 exists v, (if is_ok (le_sem env)
                            then [E_write F_light light; E_sem_send] else [])
                           = [E_write F_light v; E_sem_send])
    by (destruct (is_ok (le_sem env)); eauto).
  simpl ll_level. simpl ll_light.
  destruct (Z.eq_dec (motion_detected w) 0) as [Hz|Hnz].
  - destruct (light_task_resource_idle (le_mut_acquire env) (le_mut_release env)
                self (room_level light) ws) as (got & w2 & tl & Hres & Hlp2 & Hput2).
    { congruence. } { rewrite Hr. assumption. }
    rewrite (bind_run _ _ _ _ _ _ Hres).
    assert (Hwf2 : ring_wf w2) by (unfold ring_wf in *; rewrite Hlp2, Hput2, Hlp, Hput; assumption).
    rewrite (bind_run _ _ _ _ _ _ (log_emit_run _ _ w2 Hwf2)).
    unfold_monad. simpl.
    eexists _, _, _,
      (E_read F_motion 0 :: E_ocpp_acquire self LIGHT_RESOURCE_CEILING got ::
       E_update_light_leds (room_level light) :: tl), _.
    split; [reflexivity|]. split; [exact Hpre|].
    split; [intros; contradiction|]. intros _. eauto.
  - destruct (light_task_resource_motion (le_mut_acquire env) (le_mut_release env)
                self (room_level light) ws) as (w2 & Hres & Hlp2 & Hput2 & _).
    { congruence. }
    rewrite (bind_run _ _ _ _ _ _ Hres).
    assert (Hwf2 : ring_wf w2) by (unfold ring_wf in *; rewrite Hlp2, Hput2, Hlp, Hput; assumption).
    rewrite (bind_run _ _ _ _ _ _ (log_emit_run _ _ w2 Hwf2)).
    unfold_monad. simpl.
    eexists _, _, _, (flash_events (motion_detected ws)), _.
    split; [reflexivity|]. split; [exact Hpre|].
    split; [intros _; rewrite Hm; reflexivity|]. intros; contradiction.
Qed.

(** C9.  One iteration of [light_task] on an intact state.  If
    [motion_detected] is non-zero the iteration flashes all LEDs
    ([FIO2SET = 0xFF], delay, [FIO2CLR = 0xFF]) right after testing the flag
    and the whole iteration makes no call to [icpp_acquire], [icpp_release],
    [ocpp_acquire] or [ocpp_release].  If the flag is zero the iteration
    calls [ocpp_acquire(self, 2)] before any [update_light_leds], and then
    updates the light LEDs with the level it computed. *)
Theorem light_task_motion_override env self l w :
  ring_wf w -> registry_wf (reg w) ->
  exists l' w' t,
    light_task env self l w = Some (l', w', t) /\
    (motion_detected w <> 0 ->
       forallb (fun e => negb (is_ceiling_call e)) t = true /\
       exists t1 t2, t = t1 ++ flash_events (motion_detected w) ++ t2) /\
    (motion_detected w = 0 ->
       ocpp_attempt_before_update self t = true /\
       In (E_update_light_leds (ll_level l')) t).
Proof.
  intros Hring Hreg.
  destruct (light_task_run env self l w Hring Hreg)
    as (l' & w' & pre & mid & slot & Hrun & Hpre & Hmotion & Hidle).
  eexists l', w', _. split; [exact Hrun|]. split.
  - intros Hm. rewrite (Hmotion Hm). split.
    + destruct Hpre as [->|[v ->]]; reflexivity.
    + eexists _, _. reflexivity.
  - intros Hz. destruct (Hidle Hz) as (got & tl & ->). split.
    + destruct Hpre as [->|[v ->]]; simpl;
        rewrite Z.eqb_refl; reflexivity.
    + apply in_or_app. right. simpl. auto.
Qed.

(** C9 on the state left by [init], once with the flag raised and once
    with it low. *)
Lemma light_task_motion_override_witness :
  let w0 := set_reg (init_registry 1 2 3 4 5 6 7) world_init in
  let w1 := set_motion_detected 1 w0 in
  let env := mkLightEnv OS_R_OK OS_R_OK OS_R_OK OS_R_OK in
  (exists l' w' t,
      light_task env 2 light_locals_init w1 = Some (l', w', t) /\
      forallb (fun e => negb (is_ceiling_call e)) t = true) /\
  (exists l' w' t,
      light_task env 2 light_locals_init w0 = Some (l', w', t) /\
      ocpp_attempt_before_update 2 t = true).
Proof.
  intros w0 w1 env.
  assert (Hring : forall w, log_pool w = log_pool world_init ->
                            log_pool_put w = 0 -> ring_wf w).
  { intros w Hp Hc. unfold ring_wf. rewrite Hp, Hc. vm_compute.
    split; [reflexivity|]. split; [discriminate|reflexivity]. }
  split.
  - destruct (light_task_motion_override env 2 light_locals_init w1)
      as (l' & w' & t & Hrun & Hm & _).
    + apply Hring; reflexivity.
    + apply init_registry_wf.
    + exists l', w', t. split; [exact Hrun|]. apply Hm. simpl. lia.
  - destruct (light_task_motion_override env 2 light_locals_init w0)
      as (l' & w' & t & Hrun & _ & Hz).
    + apply Hring; reflexivity.
    + apply init_registry_wf.
    + exists l', w', t. split; [exact Hrun|]. apply Hz. reflexivity.
Defined.

(** * Further properties of the code *)

(** ** Registering and looking up *)

(** Writing an entry behind the scanned range does not change the scan. *)
Lemma scan_table_insert_behind tbl t e k n : forall i,
  0 <= i -> (Z.to_nat i + n <= k)%nat ->
  scan_table (<[k := e]> tbl) t i n = scan_table tbl t i n.
Proof.
  induction n as [|n IH]; intros i Hi Hk; simpl; [reflexivity|].
  rewrite list_lookup_insert_ne by lia.
  destruct (tbl !! Z.to_nat i) as [e0|]; [|reflexivity].
  destruct (tid e0 =? t); [reflexivity|].
  apply IH; [lia|]. rewrite Z2Nat.inj_add by lia. simpl. lia.
Qed.

(** Scanning one entry further than a range that has no entry for [t]. *)
Lemma scan_table_one_more tbl t n : forall i,
  0 <= i -> (Z.to_nat i + n < length tbl)%nat ->
  (forall j e, i <= j < i + Z.of_nat n -> tbl !! Z.to_nat j = Some e -> tid e <> t) ->
  forall e, tbl !! (Z.to_nat i + n)%nat = Some e ->
  scan_table tbl t i (S n) = if tid e =? t then Some (base_prio e) else Some INT_MAX.
Proof.
  induction n as [|n IH]; intros i Hi Hb Hno e He.
  - simpl. rewrite Nat.add_0_r in He. rewrite He. reflexivity.
  - destruct (lookup_lt_is_Some_2 tbl (Z.to_nat i)) as [e0 He0]; [lia|].
    change (scan_table tbl t i (S (S n)))
      with (match tbl !! Z.to_nat i with
            | None => None
            | Some e1 => if tid e1 =? t then Some (base_prio e1)
                         else scan_table tbl t (i + 1) (S n)
            end).
    rewrite He0.
    destruct (Z.eqb_spec (tid e0) t) as [Heq|_].
    + exfalso. apply (Hno i e0); [lia|assumption|assumption].
    + apply IH; [lia| | |].
      * rewrite Z2Nat.inj_add by lia. simpl. lia.
      * intros j e' Hj. apply Hno. lia.
      * replace (Z.to_nat (i + 1) + n)%nat with (Z.to_nat i + S n)%nat by lia.
        assumption.
Qed.

(** Scanning one entry further than a range that has an entry for [t]. *)
Lemma scan_table_found_before tbl t n : forall i,
  0 <= i ->
  (exists j e, i <= j < i + Z.of_nat n /\ tbl !! Z.to_nat j = Some e /\ tid e = t) ->
  scan_table tbl t i (S n) = scan_table tbl t i n.
Proof.
  induction n as [|n IH]; intros i Hi (j & e & Hj & He & Ht); [lia|].
  change (scan_table tbl t i (S (S n)))
    with (match tbl !! Z.to_nat i with
          | None => None
          | Some e1 => if tid e1 =? t then Some (base_prio e1)
                       else scan_table tbl t (i + 1) (S n)
          end).
  change (scan_table tbl t i (S n))
    with (match tbl !! Z.to_nat i with
          | None => None
          | Some e1 => if tid e1 =? t then Some (base_prio e1)
                       else scan_table tbl t (i + 1) n
          end).
  destruct (tbl !! Z.to_nat i) as [e0|] eqn:He0; [|reflexivity].
  destruct (Z.eqb_spec (tid e0) t) as [Heq|Hne]; [reflexivity|].
  apply IH; [lia|]. exists j, e.
  assert (j <> i) by (intros ->; congruence).
  split; [lia|]. split; assumption.
Qed.

Lemma get_base_priority_register_new r t p t' :
  registry_wf r -> task_table_count r < MAX_TASKS -> ~ registered r t' ->
  get_base_priority (register_task t p r) t' =
  if t =? t' then Some p else Some INT_MAX.
Proof.
  intros [Hlen Hcnt] Hroom Hnr. unfold get_base_priority, register_task.
  destruct (Z.ltb_spec (task_table_count r) MAX_TASKS); [|lia]. simpl.
  replace (Z.to_nat (task_table_count r + 1))
    with (S (Z.to_nat (task_table_count r))) by lia.
  assert (Hk : (Z.to_nat (task_table_count r) < length (task_table r))%nat)
    by (rewrite Hlen; lia).
  rewrite (scan_table_one_more _ t' (Z.to_nat (task_table_count r)) 0)
    with (e := mkTaskInfo t p).
  - reflexivity.
  - lia.
  - rewrite length_insert. change (Z.to_nat 0) with 0%nat. lia.
  - intros j e Hj He. rewrite list_lookup_insert_ne in He by lia.
    intros Ht. apply Hnr. exists j, e. split; [lia|]. split; assumption.
  - change (Z.to_nat 0) with 0%nat. rewrite Nat.add_0_l.
    apply list_lookup_insert_eq. assumption.
Qed.

Lemma get_base_priority_register_old r t p t' :
  registry_wf r -> registered r t' ->
  get_base_priority (register_task t p r) t' = get_base_priority r t'.
Proof.
  intros [Hlen Hcnt] (j & e & Hj & He & Ht). unfold get_base_priority, register_task.
  destruct (Z.ltb_spec (task_table_count r) MAX_TASKS); [|reflexivity]. simpl.
  replace (Z.to_nat (task_table_count r + 1))
    with (S (Z.to_nat (task_table_count r))) by lia.
  rewrite scan_table_found_before.
  - apply scan_table_insert_behind; simpl; lia.
  - lia.
  - exists j, e. split; [lia|]. split; [|assumption].
    rewrite list_lookup_insert_ne by lia. assumption.
Qed.

Lemma registered_register_task r t p t' :
  registry_wf r ->
  registered (register_task t p r) t' <->
  registered r t' \/ (task_table_count r < MAX_TASKS /\ t' = t).
Proof.
  intros [Hlen Hcnt]. unfold register_task.
  destruct (Z.ltb_spec (task_table_count r) MAX_TASKS) as [Hroom|Hfull].
  - unfold registered. simpl. split.
    + intros (j & e & Hj & He & Ht).
      destruct (Z.eq_dec j (task_table_count r)) as [->|Hne].
      * rewrite list_lookup_insert_eq in He by (rewrite Hlen; lia).
        injection He as <-. simpl in Ht. right. auto.
      * rewrite list_lookup_insert_ne in He by lia.
        left. exists j, e. split; [lia|]. split; assumption.
    + intros [(j & e & Hj & He & Ht)|[_ ->]].
      * exists j, e. split; [lia|]. split; [|assumption].
        rewrite list_lookup_insert_ne by lia. assumption.
      * exists (task_table_count r), (mkTaskInfo t p). split; [lia|].
        split; [|reflexivity].
        apply list_lookup_insert_eq. rewrite Hlen. lia.
  - split; [auto|]. intros [H|[H _]]; [assumption|lia].
Qed.

(** X1.  Registering an identity that is not yet in a table with room left
    makes [get_base_priority] return the priority given. *)
Theorem register_then_lookup r t p :
  registry_wf r -> task_table_count r < MAX_TASKS -> ~ registered r t ->
  get_base_priority (register_task t p r) t = Some p.
Proof.
  intros Hwf Hroom Hnr.
  rewrite (get_base_priority_register_new r t p t Hwf Hroom Hnr).
  rewrite Z.eqb_refl. reflexivity.
Qed.

Lemma register_then_lookup_witness :
  get_base_priority (register_task 8 3 (init_registry 1 2 3 4 5 6 7)) 8 = Some 3.
Proof.
  apply register_then_lookup.
  - apply init_registry_wf.
  - vm_compute. reflexivity.
  - intros H. apply registeredb_spec in H. vm_compute in H. discriminate H.
Defined.

(** X2.  A registration never changes what is looked up for an identity
    that is already registered (the first registration of an identity wins,
    a second one with another priority is shadowed) nor for any identity
    other than the one registered. *)
Theorem register_keeps_earlier_entries r t p t' :
  registry_wf r -> registered r t' \/ t' <> t ->
  get_base_priority (register_task t p r) t' = get_base_priority r t'.
Proof.
  intros Hwf Hcase.
  destruct (registeredb r t') eqn:Hb.
  - apply get_base_priority_register_old; [assumption|].
    apply registeredb_spec. assumption.
  - assert (Hnr : ~ registered r t').
    { intros H. apply registeredb_spec in H. congruence. }
    destruct Hcase as [H|Hne]; [contradiction|].
    rewrite (get_base_priority_unregistered r t' Hwf Hnr).
    destruct (Z.ltb_spec (task_table_count r) MAX_TASKS) as [Hroom|Hfull].
    + rewrite (get_base_priority_register_new r t p t' Hwf Hroom Hnr).
      destruct (Z.eqb_spec t t'); [congruence|reflexivity].
    + unfold register_task.
      destruct (Z.ltb_spec (task_table_count r) MAX_TASKS); [lia|].
      apply get_base_priority_unregistered; assumption.
Qed.

Lemma register_keeps_earlier_entries_witness :
  get_base_priority (register_task 2 1 (init_registry 1 2 3 4 5 6 7)) 2 = Some 4.
Proof.
  rewrite register_keeps_earlier_entries.
  - reflexivity.
  - apply init_registry_wf.
  - left. apply registeredb_spec. reflexivity.
Defined.

(** X3.  Once the table holds [MAX_TASKS] entries a registration is dropped
    without notice: the identity stays unregistered, its lookup still gives
    0x7fffffff, and [ocpp_acquire] refuses it for every ceiling below
    that. *)
Theorem register_on_full_table_dropped r t p :
  registry_wf r -> task_table_count r = MAX_TASKS -> ~ registered r t ->
  register_task t p r = r /\
  get_base_priority (register_task t p r) t = Some INT_MAX /\
  forall mut R c, R < INT_MAX ->
    ocpp_acquire mut t R (register_task t p r) c = Some (0, c).
Proof.
  intros Hwf Hfull Hnr.
  assert (Hsame : register_task t p r = r).
  { unfold register_task.
    destruct (Z.ltb_spec (task_table_count r) MAX_TASKS); [lia|reflexivity]. }
  rewrite Hsame.
  pose proof (get_base_priority_unregistered r t Hwf Hnr) as Hp.
  split; [reflexivity|]. split; [assumption|].
  intros mut R c HR.
  destruct (ocpp_acquire_cases mut t R r c INT_MAX Hp) as [(_ & Hle & _)|(_ & ->)];
    [lia|reflexivity].
Qed.

Lemma register_on_full_table_dropped_witness :
  let full := Nat.iter 12 (fun r => register_task (task_table_count r + 1) 3 r)
                       registry_init in
  register_task 13 1 full = full /\
  get_base_priority (register_task 13 1 full) 13 = Some INT_MAX.
Proof.
  intros full.
  destruct (register_on_full_table_dropped full 13 1) as (H1 & H2 & _).
  - unfold full. simpl. repeat apply register_task_wf. apply registry_init_wf.
  - vm_compute. reflexivity.
  - intros H. apply registeredb_spec in H. vm_compute in H. discriminate H.
  - split; assumption.
Defined.

(** ** The registry built by [init] *)

(** X4.  When [os_tsk_create] hands out seven different identifiers, [init]
    leaves each task registered with the priority it was created with:
    temperature 3, light 4, motion 2, display 5, logger 6, emergency 1 and
    clock 7. *)
Theorem init_registers_creation_priorities a b c d e f g :
  NoDup [a; b; c; d; e; f; g] ->
  let r := init_registry a b c d e f g in
  get_base_priority r a = Some 3 /\
  get_base_priority r b = Some 4 /\
  get_base_priority r c = Some 2 /\
  get_base_priority r d = Some 5 /\
  get_base_priority r e = Some 6 /\
  get_base_priority r f = Some 1 /\
  get_base_priority r g = Some 7.
Proof.
  intros Hnd r. split_nodup.
  unfold r, init_registry, get_base_priority. simpl.
  repeat split;
    repeat match goal with
           | |- context [Z.eqb ?x ?y] =>
               destruct (Z.eqb_spec x y); [try reflexivity; exfalso; intuition congruence|]
           end;
    try reflexivity; exfalso; intuition congruence.
Qed.

Lemma init_registers_creation_priorities_witness :
  get_base_priority (init_registry 1 2 3 4 5 6 7) 6 = Some 1 /\
  get_base_priority (init_registry 1 2 3 4 5 6 7) 2 = Some 4.
Proof.
  destruct (init_registers_creation_priorities 1 2 3 4 5 6 7)
    as (_ & Hl & _ & _ & _ & He & _).
  - apply (bool_decide_unpack _). vm_compute. reflexivity.
  - split; assumption.
Defined.

Lemma init_registry_light a b c d e f g :
  a <> b -> get_base_priority (init_registry a b c d e f g) b = Some 4.
Proof.
  intros Hab. unfold init_registry, get_base_priority. simpl.
  destruct (Z.eqb_spec a b); [contradiction|]. rewrite Z.eqb_refl. reflexivity.
Qed.

(** X5.  In the system as [init] sets it up the light task (priority 4)
    never obtains its own resource (ceiling 2): with the motion flag low,
    [ocpp_acquire] returns 0 whatever the ceiling state and the mutex
    outcome, the LEDs are updated on the unprotected path, [ocpp_release] is
    not called and the ceiling state is left as it was. *)
Theorem light_task_never_granted a b c d e f g ma mr level w :
  a <> b ->
  reg w = init_registry a b c d e f g ->
  motion_detected w = 0 ->
  exists w' t,
    light_task_resource ma mr b level w =
      Some (tt, w',
            E_read F_motion 0 :: E_ocpp_acquire b LIGHT_RESOURCE_CEILING 0 ::
            E_update_light_leds level :: t) /\
    ceil w' = ceil w /\
    forallb (fun e => negb (is_ceiling_call e)) t = true.
Proof.
  intros Hab Hreg Hm.
  pose proof (init_registry_light a b c d e f g Hab) as Hp. rewrite <- Hreg in Hp.
  unfold light_task_resource, ocpp_acquire_m, ocpp_release_m, update_light_leds.
  unfold_monad. simpl. rewrite Hm. simpl.
  destruct (ocpp_acquire_cases ma b LIGHT_RESOURCE_CEILING (reg w) (ceil w) 4 Hp)
    as [(_ & Hle & _)|(_ & ->)].
  - unfold LIGHT_RESOURCE_CEILING in Hle. lia.
  - simpl. eexists _, _. split; [reflexivity|]. split; reflexivity.
Qed.

Lemma light_task_never_granted_witness :
  exists w' t,
    light_task_resource OS_R_OK OS_R_OK 2 3
      (set_reg (init_registry 1 2 3 4 5 6 7) world_init) =
      Some (tt, w',
            E_read F_motion 0 :: E_ocpp_acquire 2 LIGHT_RESOURCE_CEILING 0 ::
            E_update_light_leds 3 :: t) /\
    ceil w' = ceiling_init.
Proof.
  destruct (light_task_never_granted 1 2 3 4 5 6 7 OS_R_OK OS_R_OK 3
              (set_reg (init_registry 1 2 3 4 5 6 7) world_init))
    as (w' & t & Hrun & Hc & _).
  - lia.
  - reflexivity.
  - reflexivity.
  - exists w', t. split; [exact Hrun|exact Hc].
Defined.

(** ** OCPP: one scalar ceiling *)

(** X6.  A granted [ocpp_acquire] followed by the matching [ocpp_release]
    leaves [system_ceiling] at 0 whatever it was before the acquire: a
    ceiling that was in force when the resource was taken is not put back. *)
Theorem ocpp_release_forgets_earlier_ceiling r a R c p :
  get_base_priority r a = Some p ->
  p <= R -> system_ceiling c = 0 \/ p <= system_ceiling c ->
  exists c1,
    ocpp_acquire OS_R_OK a R r c = Some (1, c1) /\
    system_ceiling c1 = R /\
    ocpp_release OS_R_OK a R c1 = set_system_ceiling 0 c.
Proof.
  intros Hp HR Hc.
  destruct (ocpp_acquire_cases OS_R_OK a R r c p Hp) as [(_ & _ & _ & ->)|(Hn & _)].
  - exists (set_system_ceiling R c). split; [reflexivity|]. split; [reflexivity|].
    rewrite ocpp_release_ok. simpl. rewrite decide_True by reflexivity. reflexivity.
  - exfalso. apply Hn. auto.
Qed.

(** The emergency task (priority 1) takes a resource of ceiling 2 while a
    ceiling 5 is in force; after its release no ceiling is in force. *)
Lemma ocpp_release_forgets_earlier_ceiling_witness :
  exists c1,
    ocpp_acquire OS_R_OK 6 2 (init_registry 1 2 3 4 5 6 7) (mkCeiling 0 5) = Some (1, c1) /\
    system_ceiling c1 = 2 /\
    ocpp_release OS_R_OK 6 2 c1 = mkCeiling 0 0.
Proof.
  apply (ocpp_release_forgets_earlier_ceiling (init_registry 1 2 3 4 5 6 7) 6 2
           (mkCeiling 0 5) 1).
  - reflexivity.
  - lia.
  - right. simpl. lia.
Defined.

(** X7.  OCPP as coded does not exclude a second taker: after task [a] has
    been granted the resource of ceiling [R], a task [b] whose priority
    value is also at most [R] is granted the same resource at once, without
    any release in between, and the ceiling state does not show it. *)
Theorem ocpp_grants_twice r a b R c pa pb :
  get_base_priority r a = Some pa -> get_base_priority r b = Some pb ->
  pa <= R -> pb <= R -> system_ceiling c = 0 ->
  exists c1,
    ocpp_acquire OS_R_OK a R r c = Some (1, c1) /\
    ocpp_acquire OS_R_OK b R r c1 = Some (1, c1).
Proof.
  intros Ha Hb HRa HRb Hc.
  destruct (ocpp_acquire_cases OS_R_OK a R r c pa Ha) as [(_ & _ & _ & ->)|(Hn & _)];
    [|exfalso; apply Hn; auto].
  exists (set_system_ceiling R c). split; [reflexivity|].
  destruct (ocpp_acquire_cases OS_R_OK b R r (set_system_ceiling R c) pb Hb)
    as [(_ & _ & _ & ->)|(Hn & _)].
  - reflexivity.
  - exfalso. apply Hn. simpl. auto.
Qed.

(** Motion (priority 2) and emergency (priority 1) both hold ceiling 2. *)
Lemma ocpp_grants_twice_witness :
  exists c1,
    ocpp_acquire OS_R_OK 3 2 (init_registry 1 2 3 4 5 6 7) ceiling_init = Some (1, c1) /\
    ocpp_acquire OS_R_OK 6 2 (init_registry 1 2 3 4 5 6 7) c1 = Some (1, c1).
Proof.
  apply (ocpp_grants_twice (init_registry 1 2 3 4 5 6 7) 3 6 2 ceiling_init 2 1);
    try reflexivity; lia.
Defined.

(** ** ICPP: exclusion *)

Lemma icpp_step_keeps_owner a c k :
  a <> 0 -> ceiling_owner c = a -> not_release_by a k = true ->
  icpp_step c k = c.
Proof.
  intros Ha Ho Hk. destruct k as [mut s|mut s]; simpl in *.
  - rewrite icpp_acquire_owned by congruence. reflexivity.
  - destruct (icpp_release_cases mut s c) as [->|(-> & Hs & _)]; [reflexivity|].
    simpl in Hk. rewrite <- Hs, Ho, Z.eqb_refl in Hk. discriminate Hk.
Qed.

Lemma icpp_run_keeps_owner a ks : forall c,
  a <> 0 -> ceiling_owner c = a -> forallb (not_release_by a) ks = true ->
  icpp_run ks c = c.
Proof.
  induction ks as [|k ks IH]; intros c Ha Ho Hks; [reflexivity|].
  simpl in Hks. apply andb_true_iff in Hks. destruct Hks as [Hk Hks].
  unfold icpp_run in *. simpl.
  rewrite (icpp_step_keeps_owner a c k Ha Ho Hk). apply IH; assumption.
Qed.

(** X8.  Once a task [a] has been granted the ICPP resource, no sequence of
    calls changes the ceiling state unless it contains a release by [a]
    whose mutex wait succeeds: every acquire in between is refused, also
    one by [a] itself; and that release puts the state back to what it was
    before the grant. *)
Theorem icpp_exclusive_until_release a c ks :
  a <> 0 -> ceiling_owner c = 0 -> forallb (not_release_by a) ks = true ->
  let c1 := (icpp_acquire OS_R_OK a c).2 in
  (icpp_acquire OS_R_OK a c).1 = 1 /\
  icpp_run ks c1 = c1 /\
  (forall mut b, icpp_acquire mut b (icpp_run ks c1) = (0, c1)) /\
  icpp_release OS_R_OK a (icpp_run ks c1) = c.
Proof.
  intros Ha Hfree Hks c1. unfold c1.
  rewrite (icpp_acquire_free OS_R_OK a c eq_refl Hfree). simpl.
  assert (Hrun : icpp_run ks (set_ceiling_owner a c) = set_ceiling_owner a c)
    by (apply (icpp_run_keeps_owner a); [assumption|reflexivity|assumption]).
  rewrite Hrun. split; [reflexivity|]. split; [reflexivity|]. split.
  - intros mut b. apply icpp_acquire_owned. simpl. assumption.
  - unfold icpp_release. simpl. rewrite Z.eqb_refl.
    destruct c as [o s]. simpl in Hfree. subst o. reflexivity.
Qed.

Lemma icpp_exclusive_until_release_witness :
  let ks := [IAcquire OS_R_OK 4; IRelease OS_R_OK 4; IAcquire OS_R_OK 3;
             IRelease OS_R_TMO 3] in
  icpp_run ks (mkCeiling 3 0) = mkCeiling 3 0 /\
  icpp_release OS_R_OK 3 (icpp_run ks (mkCeiling 3 0)) = ceiling_init.
Proof.
  intros ks.
  destruct (icpp_exclusive_until_release 3 ceiling_init ks) as (_ & Hrun & _ & Hrel).
  - lia.
  - reflexivity.
  - reflexivity.
  - split; [exact Hrun|exact Hrel].
Defined.

(** ** LED port *)

Lemma pins_written_under_mask f m b :
  Z.land (Z.lor (Z.ldiff f m) (Z.land b m)) m = Z.land b m.
Proof.
  apply Z.bits_inj'. intros n Hn.
  rewrite !Z.land_spec, Z.lor_spec, Z.ldiff_spec, Z.land_spec.
  destruct (Z.testbit f n), (Z.testbit m n), (Z.testbit b n); reflexivity.
Qed.

Lemma pins_kept_outside_mask f m b :
  Z.ldiff (Z.lor (Z.ldiff f m) (Z.land b m)) m = Z.ldiff f m.
Proof.
  apply Z.bits_inj'. intros n Hn.
  rewrite !Z.ldiff_spec, Z.lor_spec, Z.ldiff_spec, Z.land_spec.
  destruct (Z.testbit f n), (Z.testbit m n), (Z.testbit b n); reflexivity.
Qed.

Lemma pins_off_after_set_clear f m :
  Z.land (Z.ldiff (Z.lor f m) m) m = 0 /\
  Z.ldiff (Z.ldiff (Z.lor f m) m) m = Z.ldiff f m.
Proof.
  split; apply Z.bits_inj'; intros n Hn.
  - rewrite Z.land_spec, Z.ldiff_spec, Z.lor_spec, Z.bits_0.
    destruct (Z.testbit f n), (Z.testbit m n); reflexivity.
  - rewrite !Z.ldiff_spec, Z.lor_spec.
    destruct (Z.testbit f n), (Z.testbit m n); reflexivity.
Qed.

Lemma update_temp_leds_run level w :
  exists bits,
    update_temp_leds level w =
      Some (tt,
            set_fio2 (Z.lor (Z.ldiff (fio2 w) LED_TEMP_MASK) (Z.land bits LED_TEMP_MASK)) w,
            [E_update_temp_leds level; E_fio2clr LED_TEMP_MASK;
             E_fio2set (Z.land bits LED_TEMP_MASK)]) /\
    bits = (if (0 <=? level) && (level <=? 3) then 2 ^ (level + 1) - 1 else 1).
Proof.
  unfold update_temp_leds. unfold_monad. simpl.
  eexists. split; [reflexivity|].
  destruct (Z.eqb_spec level 0) as [->|H0]; [reflexivity|].
  destruct (Z.eqb_spec level 1) as [->|H1]; [reflexivity|].
  destruct (Z.eqb_spec level 2) as [->|H2]; [reflexivity|].
  destruct (Z.eqb_spec level 3) as [->|H3]; [reflexivity|].
  destruct (Z.leb_spec 0 level), (Z.leb_spec level 3); simpl; try reflexivity. lia.
Qed.

Lemma update_light_leds_run level w :
  exists bits,
    update_light_leds level w =
      Some (tt,
            set_fio2 (Z.lor (Z.ldiff (fio2 w) LED_LIGHT_MASK) (Z.land bits LED_LIGHT_MASK)) w,
            [E_update_light_leds level; E_fio2clr LED_LIGHT_MASK;
             E_fio2set (Z.land bits LED_LIGHT_MASK)]) /\
    bits = (if (0 <=? level) && (level <=? 3) then 16 * (2 ^ level - 1) else 16).
Proof.
  unfold update_light_leds. unfold_monad. simpl.
  eexists. split; [reflexivity|].
  destruct (Z.eqb_spec level 0) as [->|H0]; [reflexivity|].
  destruct (Z.eqb_spec level 1) as [->|H1]; [reflexivity|].
  destruct (Z.eqb_spec level 2) as [->|H2]; [reflexivity|].
  destruct (Z.eqb_spec level 3) as [->|H3]; [reflexivity|].
  destruct (Z.leb_spec 0 level), (Z.leb_spec level 3); simpl; try reflexivity. lia.
Qed.

(** X9.  [update_temp_leds] changes only pins P2.0-P2.3 and leaves on them
    the thermometer code of the level: [level + 1] LEDs lit for levels 0 to
    3, and one LED for any other level.  [update_light_leds] changes only
    pins P2.4-P2.6: [level] LEDs lit for levels 0 to 3, one for any other
    level.  Neither touches any other global. *)
Theorem led_updates_stay_in_their_group level w :
  (exists w' t,
      update_temp_leds level w = Some (tt, w', t) /\
      w' = set_fio2 (fio2 w') w /\
      Z.ldiff (fio2 w') LED_TEMP_MASK = Z.ldiff (fio2 w) LED_TEMP_MASK /\
      Z.land (fio2 w') LED_TEMP_MASK =
        (if (0 <=? level) && (level <=? 3) then 2 ^ (level + 1) - 1 else 1)) /\
  (exists w' t,
      update_light_leds level w = Some (tt, w', t) /\
      w' = set_fio2 (fio2 w') w /\
      Z.ldiff (fio2 w') LED_LIGHT_MASK = Z.ldiff (fio2 w) LED_LIGHT_MASK /\
      Z.land (fio2 w') LED_LIGHT_MASK =
        (if (0 <=? level) && (level <=? 3) then 16 * (2 ^ level - 1) else 16)).
Proof.
  split.
  - destruct (update_temp_leds_run level w) as (bits & -> & Hb).
    eexists _, _. split; [reflexivity|]. simpl. split; [reflexivity|].
    split; [apply pins_kept_outside_mask|].
    rewrite pins_written_under_mask. subst bits.
    destruct (Z.leb_spec 0 level), (Z.leb_spec level 3); simpl; try reflexivity.
    assert (Hl : level = 0 \/ level = 1 \/ level = 2 \/ level = 3) by lia.
    destruct Hl as [-> | [-> | [-> | ->]]]; reflexivity.
  - destruct (update_light_leds_run level w) as (bits & -> & Hb).
    eexists _, _. split; [reflexivity|]. simpl. split; [reflexivity|].
    split; [apply pins_kept_outside_mask|].
    rewrite pins_written_under_mask. subst bits.
    destruct (Z.leb_spec 0 level), (Z.leb_spec level 3); simpl; try reflexivity.
    assert (Hl : level = 0 \/ level = 1 \/ level = 2 \/ level = 3) by lia.
    destruct Hl as [-> | [-> | [-> | ->]]]; reflexivity.
Qed.

(** X10.  The motion override of [light_task] ends with pins P2.0-P2.7 all
    low, whatever they showed before: the flash also switches off the fan
    LEDs that [temp_task] had set and the clock LED.  The pins above P2.7
    and the other globals are as before. *)
Theorem motion_flash_leaves_all_leds_off ma mr self level w :
  motion_detected w <> 0 ->
  exists w',
    light_task_resource ma mr self level w
      = Some (tt, w', flash_events (motion_detected w)) /\
    w' = set_fio2 (fio2 w') w /\
    Z.land (fio2 w') 0xFF = 0 /\
    Z.ldiff (fio2 w') 0xFF = Z.ldiff (fio2 w) 0xFF.
Proof.
  intros Hm. unfold light_task_resource. unfold_monad. simpl.
  destruct (Z.eqb_spec (motion_detected w) 0); [contradiction|]. simpl.
  eexists. split; [reflexivity|]. simpl. split; [reflexivity|].
  apply pins_off_after_set_clear.
Qed.

Lemma motion_flash_leaves_all_leds_off_witness :
  exists w',
    light_task_resource OS_R_OK OS_R_OK 2 1
      (set_fio2 0x8F (set_motion_detected 1 world_init))
      = Some (tt, w', flash_events 1) /\
    Z.land (fio2 w') 0xFF = 0.
Proof.
  destruct (motion_flash_leaves_all_leds_off OS_R_OK OS_R_OK 2 1
              (set_fio2 0x8F (set_motion_detected 1 world_init)))
    as (w' & Hrun & _ & Hoff & _).
  - simpl. lia.
  - exists w'. split; [exact Hrun|exact Hoff].
Defined.

(** ** The simulated sensor values *)

Lemma temp_task_sense_ok sem l w :
  temp_locals_ok l ->
  exists l',
    temp_task_sense sem l w =
      Some (l', (if is_ok sem then set_sensor_temp (tl_temp l') w else w),
            E_sem_wait 50 sem ::
            (if is_ok sem then [E_write F_temp (tl_temp l'); E_sem_send] else [])) /\
    temp_locals_ok l' /\
    tl_level l' = fan_level (tl_temp l').
Proof.
  intros (Hr & H40 & H20).
  assert (Ht : (if tl_rising l =? 0 then (tl_temp l - 1) mod UINT_MOD
                else (tl_temp l + 1) mod UINT_MOD)
               = (if tl_rising l =? 0 then tl_temp l - 1 else tl_temp l + 1))
    by (destruct (tl_rising l =? 0); apply Z.mod_small; unfold UINT_MOD; lia).
  unfold temp_task_sense. cbv zeta. rewrite Ht. unfold_monad.
  set (temp' := if tl_rising l =? 0 then tl_temp l - 1 else tl_temp l + 1).
  exists (mkTempLocals temp'
            (if temp' <=? 20 then 1 else if temp' >=? 40 then 0 else tl_rising l)
            (fan_level temp')).
  split; [destruct (is_ok sem); reflexivity|].
  split; [|reflexivity].
  unfold temp_locals_ok, temp'. simpl.
  destruct (Z.eqb_spec (tl_rising l) 0) as [Hz|Hnz].
  - assert (tl_temp l <> 20) by (intros He; apply (H20 He); assumption).
    destruct (Z.leb_spec (tl_temp l - 1) 20), (Z.geb_spec (tl_temp l - 1) 40);
      repeat split; intros; lia.
  - assert (tl_temp l <> 40) by (intros He; apply Hnz; apply (H40 He)).
    destruct (Z.leb_spec (tl_temp l + 1) 20), (Z.geb_spec (tl_temp l + 1) 40);
      repeat split; intros; lia.
Qed.

Lemma light_task_sense_ok sem l w :
  light_locals_ok l ->
  exists l',
    light_task_sense sem l w =
      Some (l', (if is_ok sem then set_sensor_light (ll_light l') w else w),
            E_sem_wait 50 sem ::
            (if is_ok sem then [E_write F_light (ll_light l'); E_sem_send] else [])) /\
    light_locals_ok l' /\
    ll_level l' = room_level (ll_light l').
Proof.
  intros ([k Hk] & Hr & H90 & H10).
  assert (Ht : (if ll_darkening l =? 0 then (ll_light l - 5) mod UINT_MOD
                else (ll_light l + 5) mod UINT_MOD)
               = (if ll_darkening l =? 0 then ll_light l - 5 else ll_light l + 5))
    by (destruct (ll_darkening l =? 0); apply Z.mod_small; unfold UINT_MOD; lia).
  unfold light_task_sense. cbv zeta. rewrite Ht. unfold_monad.
  set (light' := if ll_darkening l =? 0 then ll_light l - 5 else ll_light l + 5).
  exists (mkLightLocals light'
            (if light' <=? 10 then 1 else if light' >=? 90 then 0 else ll_darkening l)
            (room_level light')).
  split; [destruct (is_ok sem); reflexivity|].
  split; [|reflexivity].
  unfold light_locals_ok, light'. simpl.
  destruct (Z.eqb_spec (ll_darkening l) 0) as [Hz|Hnz].
  - assert (ll_light l <> 10) by (intros He; apply (H10 He); assumption).
    split; [exists (k - 1); lia|].
    destruct (Z.leb_spec (ll_light l - 5) 10), (Z.geb_spec (ll_light l - 5) 90);
      repeat split; intros; lia.
  - assert (ll_light l <> 90) by (intros He; apply Hnz; apply (H90 He)).
    split; [exists (k + 1); lia|].
    destruct (Z.leb_spec (ll_light l + 5) 10), (Z.geb_spec (ll_light l + 5) 90);
      repeat split; intros; lia.
Qed.

Lemma emergency_task_cool lcd w :
  sensor_temp w <= 45 ->
  emergency_task lcd w =
  Some (tt, set_emergency_flag 0 w, [E_read F_temp (sensor_temp w); E_dly 50]).
Proof.
  intros Hc. unfold emergency_task. unfold_monad. simpl.
  destruct (Z.gtb_spec (sensor_temp w) 45); [lia|]. reflexivity.
Qed.

(** X11.  The simulated temperature never leaves 20..40: from locals as
    [temp_task] starts with (or leaves after any iteration), any number of
    iterations, whatever the semaphore does, keeps [temp] within 20..40, and
    [sensor_temp], once within 20..40, stays there.  [emergency_task], which
    triggers above 45, then clears [emergency_flag], leaves the LCD and the
    LEDs alone and only delays. *)
Theorem temperature_stays_below_emergency sems : forall l w,
  temp_locals_ok l -> 20 <= sensor_temp w <= 40 ->
  exists l' w' t,
    temp_task_sense_iter sems l w = Some (l', w', t) /\
    temp_locals_ok l' /\
    20 <= sensor_temp w' <= 40 /\
    forall lcd,
      emergency_task lcd w' =
      Some (tt, set_emergency_flag 0 w', [E_read F_temp (sensor_temp w'); E_dly 50]).
Proof.
  induction sems as [|sem sems IH]; intros l w Hl Hw.
  - exists l, w, []. split; [reflexivity|]. split; [assumption|].
    split; [assumption|]. intros lcd. apply emergency_task_cool. lia.
  - destruct (temp_task_sense_ok sem l w Hl) as (l1 & Hrun & Hl1 & _).
    simpl. rewrite (bind_run _ _ _ _ _ _ Hrun).
    destruct (IH l1 (if is_ok sem then set_sensor_temp (tl_temp l1) w else w) Hl1)
      as (l' & w' & t & -> & Hl' & Hw' & Hem).
    + destruct Hl1 as (Hr & _). destruct (is_ok sem); simpl; lia.
    + eexists _, _, _. split; [reflexivity|]. auto.
Qed.

Lemma temperature_stays_below_emergency_witness :
  exists l' w' t,
    temp_task_sense_iter (replicate 25 OS_R_OK) temp_locals_init world_init
      = Some (l', w', t) /\
    temp_locals_ok l' /\ 20 <= sensor_temp w' <= 40.
Proof.
  destruct (temperature_stays_below_emergency (replicate 25 OS_R_OK)
              temp_locals_init world_init)
    as (l' & w' & t & Hrun & Hl & Hw & _).
  - unfold temp_locals_ok. simpl. lia.
  - simpl. lia.
  - exists l', w', t. auto.
Defined.

(** X12.  The simulated light value stays a multiple of 5 within 10..90
    over any number of [light_task] iterations, whatever the semaphore
    does, and [sensor_light], once within 10..90, stays there. *)
Theorem light_stays_in_range sems : forall l w,
  light_locals_ok l -> 10 <= sensor_light w <= 90 ->
  exists l' w' t,
    light_task_sense_iter sems l w = Some (l', w', t) /\
    light_locals_ok l' /\
    10 <= sensor_light w' <= 90.
Proof.
  induction sems as [|sem sems IH]; intros l w Hl Hw.
  - exists l, w, []. split; [reflexivity|]. split; assumption.
  - destruct (light_task_sense_ok sem l w Hl) as (l1 & Hrun & Hl1 & _).
    simpl. rewrite (bind_run _ _ _ _ _ _ Hrun).
    destruct (IH l1 (if is_ok sem then set_sensor_light (ll_light l1) w else w) Hl1)
      as (l' & w' & t & -> & Hl' & Hw').
    + destruct Hl1 as (_ & Hr & _). destruct (is_ok sem); simpl; lia.
    + eexists _, _, _. split; [reflexivity|]. auto.
Qed.

Lemma light_stays_in_range_witness :
  exists l' w' t,
    light_task_sense_iter (replicate 20 OS_R_OK) light_locals_init world_init
      = Some (l', w', t) /\
    light_locals_ok l' /\ 10 <= sensor_light w' <= 90.
Proof.
  apply (light_stays_in_range (replicate 20 OS_R_OK) light_locals_init world_init).
  - unfold light_locals_ok. simpl. split; [exists 10; reflexivity|lia].
  - simpl. lia.
Defined.

(** ** Releases called by the task bodies *)

(** X13.  Along one iteration of [display_task], [logger_task] or
    [emergency_task], and along the sensor-update lines of [temp_task] and
    [light_task], the body calls [os_sem_send(&sem_sensors)] once after each
    [os_sem_wait] that returned [OS_R_OK] and nowhere else, and
    [os_mut_release(&mut_lcd)] once after each [os_mut_wait(&mut_lcd, _)]
    that returned [OS_R_OK] and nowhere else.  After a wait that returned
    any other code the body calls no release of that lock.  This is about
    the calls the program makes; whether the kernel has handed over the lock
    with such a code is not the program's to say. *)
Theorem releases_only_after_ok_waits w :
  (forall sem l,
      releases_answer_waits false false (events (temp_task_sense sem l) w) = true /\
      (In E_sem_send (events (temp_task_sense sem l) w) -> sem = OS_R_OK)) /\
  (forall sem l,
      releases_answer_waits false false (events (light_task_sense sem l) w) = true /\
      (In E_sem_send (events (light_task_sense sem l) w) -> sem = OS_R_OK)) /\
  (forall sem lcd,
      releases_answer_waits false false (events (display_task sem lcd) w) = true /\
      (In E_sem_send (events (display_task sem lcd) w) -> sem = OS_R_OK) /\
      (In E_lcd_release (events (display_task sem lcd) w) -> lcd = OS_R_OK)) /\
  (forall mbx slot lcd,
      releases_answer_waits false false (events (logger_task mbx slot lcd) w) = true /\
      (In E_lcd_release (events (logger_task mbx slot lcd) w) -> lcd = OS_R_OK)) /\
  (forall lcd,
      releases_answer_waits false false (events (emergency_task lcd) w) = true /\
      (In E_lcd_release (events (emergency_task lcd) w) -> lcd = OS_R_OK)).
Proof.
  split; [|split; [|split; [|split]]].
  - intros sem l. unfold events.
    destruct (temp_task_sense_run sem l w) as (t & r & ->).
    destruct sem; (split; [reflexivity|]); simpl; intuition (try discriminate).
  - intros sem l. unfold events.
    destruct (light_task_sense_run sem l w) as (t & r & ->).
    destruct sem; (split; [reflexivity|]); simpl; intuition (try discriminate).
  - intros sem lcd. unfold events, display_task. unfold_monad.
    destruct sem, lcd; (split; [reflexivity|]); simpl;
      intuition (try discriminate).
  - intros mbx slot lcd. unfold events, logger_task. unfold_monad.
    destruct mbx; simpl; try (split; [reflexivity|]; simpl; intuition discriminate).
    destruct lcd; simpl;
      destruct (log_pool w !! Z.to_nat slot); simpl;
      destruct (log_pool_get w =? INT_MAX); simpl;
      (split; [reflexivity|]); simpl; intuition (try discriminate).
  - intros lcd. unfold events, emergency_task. unfold_monad. simpl.
    destruct (sensor_temp w >? 45); simpl.
    + destruct lcd; (split; [reflexivity|]); simpl; intuition (try discriminate).
    + split; [reflexivity|]. simpl. intuition discriminate.
Qed.

(** [display_task] when the wait on [mut_lcd] returns [OS_R_MUT]: the
    semaphore is given back, [os_mut_release] is not called. *)
Lemma releases_only_after_ok_waits_witness :
  releases_answer_waits false false
    (events (display_task OS_R_OK OS_R_MUT) world_init) = true /\
  In E_sem_send (events (display_task OS_R_OK OS_R_MUT) world_init) /\
  ~ In E_lcd_release (events (display_task OS_R_OK OS_R_MUT) world_init).
Proof.
  destruct (releases_only_after_ok_waits world_init) as (_ & _ & Hd & _).
  destruct (Hd OS_R_OK OS_R_MUT) as (Hb & _ & Hl).
  split; [exact Hb|]. split.
  - vm_compute. auto 10.
  - intros Hin. discriminate (Hl Hin).
Defined.

(** ** [display_task] and [logger_task] *)

(** X14.  [display_task] changes no global.  When both the semaphore and the
    LCD mutex are obtained it clears the LCD and prints the three sensor
    fields as they are in that state; when either wait fails it writes
    nothing to the LCD, and when the semaphore wait fails it does not even
    ask for the LCD. *)
Theorem display_task_shows_current_fields sem lcd w :
  exists t,
    display_task sem lcd w = Some (tt, w, t) /\
    (sem = OS_R_OK -> lcd = OS_R_OK ->
       exists t0,
         t = t0 ++ [E_lcd_cls;
                    E_lcd_puts (Txt_snapshot (sensor_temp w) (sensor_light w)
                                             (motion_detected w));
                    E_lcd_release]) /\
    (sem <> OS_R_OK \/ lcd <> OS_R_OK ->
       forallb (fun e => negb (is_lcd_output e)) t = true) /\
    (sem <> OS_R_OK -> t = [E_evt_wait_or 7 200; E_sem_wait 50 sem]).
Proof.
  unfold display_task. unfold_monad.
  destruct (is_ok sem) eqn:Hs; simpl.
  - destruct (is_ok lcd) eqn:Hl; simpl.
    + eexists. split; [reflexivity|]. split; [|split].
      * intros _ _. eexists [_; _; _; _; _; _; _]. reflexivity.
      * apply is_ok_true in Hs, Hl. intros [H|H]; contradiction.
      * apply is_ok_true in Hs. intros H; contradiction.
    + eexists. split; [reflexivity|]. split; [|split].
      * apply is_ok_false in Hl. intros _ H; contradiction.
      * intros _. reflexivity.
      * apply is_ok_true in Hs. intros H; contradiction.
  - eexists. split; [reflexivity|]. split; [|split].
    + apply is_ok_false in Hs. intros H; contradiction.
    + intros _. reflexivity.
    + intros _. reflexivity.
Qed.

Lemma display_task_shows_current_fields_witness :
  exists t t0,
    display_task OS_R_OK OS_R_OK world_init = Some (tt, world_init, t) /\
    t = t0 ++ [E_lcd_cls; E_lcd_puts (Txt_snapshot 20 50 0); E_lcd_release].
Proof.
  destruct (display_task_shows_current_fields OS_R_OK OS_R_OK world_init)
    as (t & Hrun & Hshow & _).
  destruct (Hshow eq_refl eq_refl) as [t0 Ht].
  exists t, t0. split; [exact Hrun|exact Ht].
Defined.

(** X15.  [logger_task] consumes an entry even when it cannot show it: if
    the mailbox delivers a slot but the wait on [mut_lcd] does not return
    [OS_R_OK], nothing is written to the LCD, the slot is not read, and
    [log_pool_get] is advanced all the same; the entry is not retried. *)
Theorem logger_drops_entry_when_lcd_busy slot lcd w :
  lcd <> OS_R_OK -> log_pool_get w <> INT_MAX ->
  logger_task OS_R_OK slot lcd w =
  Some (tt, set_log_pool_get (log_pool_get w + 1) w,
        [E_mbx_wait 120 OS_R_OK; E_lcd_wait 100 lcd]).
Proof.
  intros Hl Hg. apply is_ok_false in Hl.
  unfold logger_task. unfold_monad. simpl. rewrite Hl. simpl.
  destruct (Z.eqb_spec (log_pool_get w) INT_MAX); [contradiction|]. reflexivity.
Qed.

Lemma logger_drops_entry_when_lcd_busy_witness :
  logger_task OS_R_OK 0 OS_R_TMO world_init =
  Some (tt, set_log_pool_get 1 world_init,
        [E_mbx_wait 120 OS_R_OK; E_lcd_wait 100 OS_R_TMO]).
Proof.
  apply (logger_drops_entry_when_lcd_busy 0 OS_R_TMO world_init).
  - discriminate.
  - vm_compute. discriminate.
Defined.

Lemma logger_task_shows slot m w :
  log_pool w !! Z.to_nat slot = Some m -> log_pool_get w <> INT_MAX ->
  logger_task OS_R_OK slot OS_R_OK w =
  Some (tt, set_log_pool_get (log_pool_get w + 1) w,
        [E_mbx_wait 120 OS_R_OK; E_lcd_wait 100 OS_R_OK; E_lcd_gotoxy 1 2;
         E_lcd_puts Txt_log_prefix; E_lcd_puts (Txt_log m); E_lcd_release]).
Proof.
  intros Hm Hg. unfold logger_task. unfold_monad. simpl. rewrite Hm. simpl.
  destruct (Z.eqb_spec (log_pool_get w) INT_MAX); [contradiction|]. reflexivity.
Qed.

(** ** The ICPP retry loop of [temp_task] *)





(** ** A slot between its writer and [logger_task] *)

(** X18.  What [logger_task] prints is what the slot holds when it prints,
    not what it held when its address was sent.  After the log lines of a
    producer have written text [m] into slot [log_pool_put % 5], whether
    or not the send returned [OS_R_OK] (if it did not, the cursor has not
    moved), an iteration of [logger_task] to which the mailbox delivers that
    slot and which obtains the LCD prints [m], whatever the slot held
    before, and advances [log_pool_get]. *)
Theorem logger_prints_slot_as_last_written r m w :
  ring_wf w -> log_pool_get w <> INT_MAX ->
  let slot := Z.rem (log_pool_put w) MSGBOX_SIZE in
  exists w1 w2,
    log_emit r m w = Some (tt, w1, [E_mbx_send slot r]) /\
    (r <> OS_R_OK -> log_pool_put w1 = log_pool_put w) /\
    logger_task OS_R_OK slot OS_R_OK w1 =
      Some (tt, w2,
            [E_mbx_wait 120 OS_R_OK; E_lcd_wait 100 OS_R_OK; E_lcd_gotoxy 1 2;
             E_lcd_puts Txt_log_prefix; E_lcd_puts (Txt_log m); E_lcd_release]) /\
    log_pool_get w2 = log_pool_get w + 1.
Proof.
  intros Hwf Hget slot. pose proof (ring_slot_bounds w Hwf) as Hb. fold slot in Hb.
  rewrite (log_emit_run r m w Hwf). fold slot.
  set (w1 := (if is_ok r then set_log_pool_put (log_pool_put w + 1) else id)
               (set_log_pool (<[Z.to_nat slot := m]> (log_pool w)) w)).
  assert (Hpool : log_pool w1 = <[Z.to_nat slot := m]> (log_pool w))
    by (unfold w1; destruct (is_ok r); reflexivity).
  assert (Hget1 : log_pool_get w1 = log_pool_get w)
    by (unfold w1; destruct (is_ok r); reflexivity).
  exists w1, (set_log_pool_get (log_pool_get w1 + 1) w1).
  split; [reflexivity|]. split; [|split].
  - intros Hr. apply is_ok_false in Hr. unfold w1. rewrite Hr. reflexivity.
  - apply logger_task_shows.
    + rewrite Hpool. apply list_lookup_insert_eq. lia.
    + rewrite Hget1. assumption.
  - simpl. rewrite Hget1. reflexivity.
Qed.

(** A text whose send timed out is printed in place of the blank slot 0. *)
Lemma logger_prints_slot_as_last_written_witness :
  exists w1 w2,
    log_emit OS_R_TMO (Log_temp 21 0) world_init = Some (tt, w1, [E_mbx_send 0 OS_R_TMO]) /\
    log_pool_put w1 = 0 /\
    logger_task OS_R_OK 0 OS_R_OK w1 =
      Some (tt, w2,
            [E_mbx_wait 120 OS_R_OK; E_lcd_wait 100 OS_R_OK; E_lcd_gotoxy 1 2;
             E_lcd_puts Txt_log_prefix; E_lcd_puts (Txt_log (Log_temp 21 0));
             E_lcd_release]).
Proof.
  destruct (logger_prints_slot_as_last_written OS_R_TMO (Log_temp 21 0) world_init)
    as (w1 & w2 & Hemit & Hput & Hshow & _).
  - split; [reflexivity|]. vm_compute. split; [discriminate|reflexivity].
  - vm_compute. discriminate.
  - exists w1, w2. split; [exact Hemit|]. split; [|exact Hshow].
    apply Hput. discriminate.
Defined.

(** ** [emergency_task] above the threshold *)


